(** * M5DialKeys: the polling loop of [src/main.cpp]

    A shallow embedding of the sketch that turns the M5Dial's rotary
    encoder, two-zone touch screen and push button into USB keyboard
    traffic, together with the properties its specification states.

    What is modelled
    - the six file-level variables of [main.cpp] as the record [Globals];
    - everything [loop()] reads from the hardware during one iteration as
      the record [Sample] (touch detail, display width, encoder count, the
      three button queries and the value of each [millis()] call site);
    - every call on [Keyboard] and every [draw_keys] redraw as an [action],
      logged in program order.

    What is left out: [Serial] logging, the [delay] pacing calls and the
    pixels painted by [draw_keys] (only the call and the two values it
    depends on are recorded). *)

From Stdlib Require Import ZArith List Bool Lia Ascii.
From Stdlib Require String.
Import String.StringSyntax.
Delimit Scope string_scope with string.
From Stdlib Require Import Floats.SpecFloat.
Import ListNotations.
Local Open Scope Z_scope.

(** ** Machine integers *)

Module MachineInt.

(** [long] is 32 bits wide on the ESP32-S3.  Signed overflow is
    undefined in C++; the model gives it the two's-complement result the
    target produces, and the theorems below assume it does not occur. *)
Definition long_min : Z := - 2 ^ 31.
Definition long_max : Z := 2 ^ 31 - 1.
Definition wrap_long (z : Z) : Z := (z + 2 ^ 31) mod 2 ^ 32 - 2 ^ 31.
Definition in_long (z : Z) : Prop := long_min <= z <= long_max.

(** [uint32_t]: arithmetic modulo 2^32. *)
Definition u32 (z : Z) : Z := z mod 2 ^ 32.

End MachineInt.
Export MachineInt.

(** ** Observable actions *)

(** The key codes of [USBHIDKeyboard.h] that the sketch names, and
    [KEY_LEFT_ARROW], the cursor-left key, which it never names. *)
Inductive hid_key : Type :=
| KEY_ESC
| KEY_LEFT_SHIFT
| KEY_DELETE
| KEY_RIGHT_ARROW
| KEY_DOWN_ARROW
| KEY_LEFT_ARROW.

Inductive action : Type :=
| KeyPress (k : hid_key)                 (* Keyboard.press(k)   *)
| KeyRelease (k : hid_key)               (* Keyboard.release(k) *)
| KeyWrite (c : ascii)                   (* Keyboard.write(c)   *)
| DrawKeys (pressed_zone : Z) (lock : bool). (* draw_keys(pressed_zone), with the shift_lock it reads *)

(** ** Program state and inputs *)

Record Globals : Type := mkGlobals {
  prev_pos : Z;              (* static long prev_pos *)
  shift_lock : bool;         (* static bool shift_lock *)
  last_touch_zone : Z;       (* static int16_t last_touch_zone; -1 none, 0 ESC, 1 Shift *)
  press_start_ms : Z;        (* static uint32_t press_start_ms *)
  last_delete_ms : Z;        (* static uint32_t last_delete_ms *)
  delete_mode_active : bool  (* static bool delete_mode_active *)
}.

(** [m5::touch_state_t] of the M5Unified library. *)
Inductive touch_state_t : Type :=
| none | touch | touch_end | touch_begin
| hold | hold_end | hold_begin
| flick | flick_end | flick_begin
| drag | drag_end | drag_begin.

Definition touch_state_eqb (a b : touch_state_t) : bool :=
  match a, b with
  | none, none | touch, touch | touch_end, touch_end
  | touch_begin, touch_begin | hold, hold | hold_end, hold_end
  | hold_begin, hold_begin | flick, flick | flick_end, flick_end
  | flick_begin, flick_begin | drag, drag | drag_end, drag_end
  | drag_begin, drag_begin => true
  | _, _ => false
  end.

(** What one iteration of [loop()] reads from the outside world. *)
Record Sample : Type := mkSample {
  t_state : touch_state_t;   (* M5Dial.Touch.getDetail().state *)
  t_x : Z;                   (* M5Dial.Touch.getDetail().x *)
  width : Z;                 (* M5Dial.Display.width() *)
  encoder : Z;               (* M5Dial.Encoder.read() *)
  wasPressed : bool;         (* M5Dial.BtnA.wasPressed() *)
  wasReleased : bool;        (* M5Dial.BtnA.wasReleased() *)
  pressedFor_3000 : bool;    (* M5Dial.BtnA.pressedFor(3000) *)
  ms_press : Z;              (* millis() at line 191 *)
  ms_long : Z;               (* millis() at line 197 *)
  ms_repeat : Z;             (* millis() at line 203 *)
  ms_release : Z             (* millis() at line 212 *)
}.

(** ** A state-and-log monad for the sketch's procedures *)

Definition M (A : Type) : Type := Globals -> A * Globals * list action.

Definition ret {A} (a : A) : M A := fun g => (a, g, []).

Definition bind {A B} (m : M A) (k : A -> M B) : M B :=
  fun g =>
    let '(a, g1, l1) := m g in
    let '(b, g2, l2) := k a g1 in
    (b, g2, l1 ++ l2).

Declare Scope m_scope.
Delimit Scope m_scope with m.
Notation "x <- m ;; k" := (bind m (fun x => k))
  (at level 61, m at next level, right associativity) : m_scope.
Notation "m ;; k" := (bind m (fun _ => k))
  (at level 61, right associativity) : m_scope.
Local Open Scope m_scope.

Definition gets {A} (f : Globals -> A) : M A := fun g => (f g, g, []).
Definition modify (f : Globals -> Globals) : M unit := fun g => (tt, f g, []).
Definition emit (a : action) : M unit := fun g => (tt, g, [a]).
Definition when (b : bool) (m : M unit) : M unit := if b then m else ret tt.

Definition set_prev_pos (v : Z) : M unit :=
  modify (fun g => mkGlobals v (shift_lock g) (last_touch_zone g)
                     (press_start_ms g) (last_delete_ms g) (delete_mode_active g)).
Definition set_shift_lock (v : bool) : M unit :=
  modify (fun g => mkGlobals (prev_pos g) v (last_touch_zone g)
                     (press_start_ms g) (last_delete_ms g) (delete_mode_active g)).
Definition set_last_touch_zone (v : Z) : M unit :=
  modify (fun g => mkGlobals (prev_pos g) (shift_lock g) v
                     (press_start_ms g) (last_delete_ms g) (delete_mode_active g)).
Definition set_press_start_ms (v : Z) : M unit :=
  modify (fun g => mkGlobals (prev_pos g) (shift_lock g) (last_touch_zone g)
                     v (last_delete_ms g) (delete_mode_active g)).
Definition set_last_delete_ms (v : Z) : M unit :=
  modify (fun g => mkGlobals (prev_pos g) (shift_lock g) (last_touch_zone g)
                     (press_start_ms g) v (delete_mode_active g)).
Definition set_delete_mode_active (v : bool) : M unit :=
  modify (fun g => mkGlobals (prev_pos g) (shift_lock g) (last_touch_zone g)
                     (press_start_ms g) (last_delete_ms g) v).

(** Projections of a run. *)
Definition state_of {A} (r : A * Globals * list action) : Globals := snd (fst r).
Definition actions_of {A} (r : A * Globals * list action) : list action := snd r.

(** ** The procedures of [main.cpp] *)

(** [draw_keys(pressed_zone)], lines 32-57: the picture depends on the
    argument and on [shift_lock]. *)
Definition draw_keys (pressed_zone : Z) : M unit :=
  l <- gets shift_lock ;;
  emit (DrawKeys pressed_zone l).

(** [sendEsc()], lines 80-85. *)
Definition sendEsc : M unit :=
  emit (KeyPress KEY_ESC) ;;
  emit (KeyRelease KEY_ESC).

(** [sendAsciiWithOptionalShift(c)], lines 87-99. *)
Definition sendAsciiWithOptionalShift (c : ascii) : M unit :=
  l <- gets shift_lock ;;
  when l (emit (KeyPress KEY_LEFT_SHIFT)) ;;
  emit (KeyWrite c) ;;
  l' <- gets shift_lock ;;
  when l' (emit (KeyRelease KEY_LEFT_SHIFT) ;;
           set_shift_lock false ;;
           draw_keys (-1)).

(** [sendDelete()], lines 102-107. *)
Definition sendDelete : M unit :=
  emit (KeyPress KEY_DELETE) ;;
  emit (KeyRelease KEY_DELETE).

(** [for (long i = 0; i < steps; ++i) body]: the body runs [steps] times,
    and not at all when [steps <= 0]. *)
Fixpoint repeat_body (n : nat) (body : M unit) : M unit :=
  match n with
  | O => ret tt
  | S k => body ;; repeat_body k body
  end.

Definition for_steps (steps : Z) (body : M unit) : M unit :=
  repeat_body (Z.to_nat steps) body.

(** The body of the clockwise loop, lines 148-159 ([KEY_LR_MODE] is
    defined on line 5). *)
Definition step_right : M unit :=
  l <- gets shift_lock ;;
  if l then sendAsciiWithOptionalShift "d"%char
  else (emit (KeyPress KEY_RIGHT_ARROW) ;; emit (KeyRelease KEY_RIGHT_ARROW)).

(** The body of the counter-clockwise loop, lines 166-177. *)
Definition step_left : M unit :=
  l <- gets shift_lock ;;
  if l then sendAsciiWithOptionalShift "a"%char
  else (emit (KeyPress KEY_DOWN_ARROW) ;; emit (KeyRelease KEY_DOWN_ARROW)).

(** The zone computed on lines 114-119. *)
Definition touch_zone (s : Sample) : Z :=
  if negb (touch_state_eqb (t_state s) none) then
    if (0 <=? t_x s) && (t_x s <? width s) then
      if t_x s <? Z.quot (width s) 2 then 0 else 1
    else -1
  else -1.

(** Lines 112-140: zone tracking and the touch-begin actions. *)
Definition touch_part (s : Sample) : M unit :=
  let zone := touch_zone s in
  last <- gets last_touch_zone ;;
  when (negb (zone =? last))
       (set_last_touch_zone zone ;; draw_keys zone) ;;
  when (touch_state_eqb (t_state s) touch_begin)
       (if zone =? 0 then sendEsc
        else if zone =? 1 then
          (l <- gets shift_lock ;;
           set_shift_lock (negb l) ;;
           draw_keys zone)
        else ret tt) ;;
  when (touch_state_eqb (t_state s) touch_end) (draw_keys (-1)).

(** Lines 142-182: encoder delta to key steps. *)
Definition encoder_part (s : Sample) : M unit :=
  let curr := encoder s in
  prev <- gets prev_pos ;;
  let delta := wrap_long (curr - prev) in
  if negb (delta =? 0) then
    if 0 <? delta then
      let steps := Z.quot delta 4 in
      for_steps steps step_right ;;
      p <- gets prev_pos ;;
      set_prev_pos (wrap_long (p + wrap_long (steps * 4)))
    else
      let steps := Z.quot (wrap_long (- delta)) 4 in
      for_steps steps step_left ;;
      p <- gets prev_pos ;;
      set_prev_pos (wrap_long (p - wrap_long (steps * 4)))
  else ret tt.

(** Line 212: [press_start_ms ? (millis() - press_start_ms) : 0]. *)
Definition held_ms (press_start now : Z) : Z :=
  if negb (press_start =? 0) then u32 (now - press_start) else 0.

(** Lines 184-218: the button. *)
Definition button_part (s : Sample) : M unit :=
  d0 <- gets delete_mode_active ;;
  when (d0 && wasReleased s)
       (set_delete_mode_active false ;; set_last_delete_ms 0) ;;
  when (wasPressed s) (set_press_start_ms (u32 (ms_press s))) ;;
  d1 <- gets delete_mode_active ;;
  when (negb d1 && pressedFor_3000 s)
       (set_delete_mode_active true ;;
        sendDelete ;;
        set_last_delete_ms (u32 (ms_long s))) ;;
  d2 <- gets delete_mode_active ;;
  when d2
       (when (negb (wasReleased s))
             (let now := u32 (ms_repeat s) in
              last <- gets last_delete_ms ;;
              when (500 <=? u32 (now - last))
                   (sendDelete ;; set_last_delete_ms now))) ;;
  d3 <- gets delete_mode_active ;;
  when (negb d3 && wasReleased s)
       (ps <- gets press_start_ms ;;
        let held := held_ms ps (u32 (ms_release s)) in
        when (held <? 3000) (sendAsciiWithOptionalShift "010"%char) ;;
        set_press_start_ms 0).

(** [loop()], lines 109-221. *)
Definition loop (s : Sample) : M unit :=
  touch_part s ;;
  encoder_part s ;;
  button_part s.

(** [setup()], lines 59-73, given the encoder count it reads; the other
    globals hold their initialisers. *)
Definition initial_globals : Globals := mkGlobals 0 false (-1) 0 0 false.

Definition setup (encoder0 : Z) : M unit :=
  set_prev_pos encoder0 ;;
  draw_keys (-1).

(** Successive iterations of [loop()], one per sample. *)
Fixpoint run_loop (ss : list Sample) (g : Globals) : Globals * list action :=
  match ss with
  | [] => (g, [])
  | s :: rest =>
      let r := loop s g in
      let '(g', l') := run_loop rest (state_of r) in
      (g', actions_of r ++ l')
  end.

(** ** Intents: what the USB host observes *)

(** The editing actions of the specification, each with its "with
    shift" flag.  The shift-lock toggle drives no key and is observed on
    [Globals] instead. *)
Inductive IntentKind : Type :=
| MoveStepLeft
| MoveStepRight
| Enter
| Delete
| Escape.

Definition Intent : Type := (IntentKind * bool)%type.

Definition IntentKind_eqb (a b : IntentKind) : bool :=
  match a, b with
  | MoveStepLeft, MoveStepLeft | MoveStepRight, MoveStepRight
  | Enter, Enter | Delete, Delete | Escape, Escape => true
  | _, _ => false
  end.

(** A step is named after the turn that causes it: [MoveStepRight] for
    a clockwise turn, [MoveStepLeft] for a counter-clockwise one.  The
    sketch sends the clockwise step as the right arrow and the
    counter-clockwise step as the down arrow (line 170), not as the left
    arrow; steps are counted on the key the sketch does press, and which
    key that is is settled on the actions themselves, not here. *)
Definition kind_of_key (k : hid_key) : option IntentKind :=
  match k with
  | KEY_ESC => Some Escape
  | KEY_DELETE => Some Delete
  | KEY_RIGHT_ARROW => Some MoveStepRight
  | KEY_DOWN_ARROW => Some MoveStepLeft
  | KEY_LEFT_ARROW => Some MoveStepLeft
  | KEY_LEFT_SHIFT => None
  end.

(** Characters as the sketch uses them: 'd' and 'a' carry a step while
    the lock is set (lines 149, 167) and '\n' is Enter (line 214). *)
Definition kind_of_char (c : ascii) : option IntentKind :=
  if Ascii.eqb c "d" then Some MoveStepRight
  else if Ascii.eqb c "a" then Some MoveStepLeft
  else if Ascii.eqb c "010" then Some Enter
  else None.

Definition emit_intent (k : option IntentKind) (shift : bool)
                       (rest : list Intent) : list Intent :=
  match k with
  | Some kind => (kind, shift) :: rest
  | None => rest
  end.

(** The host sees one intent per key going down, flagged with the state
    of the left shift key at that moment; redraws are invisible to it. *)
Fixpoint intents_of (shift_down : bool) (l : list action) : list Intent :=
  match l with
  | [] => []
  | KeyPress KEY_LEFT_SHIFT :: r => intents_of true r
  | KeyRelease KEY_LEFT_SHIFT :: r => intents_of false r
  | KeyPress k :: r => emit_intent (kind_of_key k) shift_down (intents_of shift_down r)
  | KeyRelease _ :: r => intents_of shift_down r
  | KeyWrite c :: r => emit_intent (kind_of_char c) shift_down (intents_of shift_down r)
  | DrawKeys _ _ :: r => intents_of shift_down r
  end.

(** Whether the left shift key is down after a run of actions. *)
Fixpoint shift_after (shift_down : bool) (l : list action) : bool :=
  match l with
  | [] => shift_down
  | KeyPress KEY_LEFT_SHIFT :: r => shift_after true r
  | KeyRelease KEY_LEFT_SHIFT :: r => shift_after false r
  | _ :: r => shift_after shift_down r
  end.

(** The intents of a run that starts with no key held. *)
Definition intents {A} (r : A * Globals * list action) : list Intent :=
  intents_of false (actions_of r).

Definition is_draw (a : action) : bool :=
  match a with DrawKeys _ _ => true | _ => false end.

Definition is_step (i : Intent) : bool :=
  match fst i with MoveStepLeft | MoveStepRight => true | _ => false end.

(** Step intents and Enter go through [sendAsciiWithOptionalShift] when
    the lock is set; Escape and Delete never do. *)
Definition modifier_sensitive (i : Intent) : bool :=
  match fst i with MoveStepLeft | MoveStepRight | Enter => true | _ => false end.

Definition is_kind (k : IntentKind) (i : Intent) : bool := IntentKind_eqb (fst i) k.

Definition count_kind (k : IntentKind) (l : list Intent) : nat :=
  length (filter (is_kind k) l).

(** A batch of [n] steps of one kind: only the first can carry shift. *)
Definition step_batch (k : IntentKind) (lock : bool) (n : nat) : list Intent :=
  match n with
  | O => []
  | S m => (k, lock) :: repeat (k, false) m
  end.

(** The shift flags of the modifier-sensitive intents of one activation:
    the first takes the lock, all later ones are plain. *)
Definition one_shot (lock : bool) (n : nat) : list bool :=
  match n with
  | O => []
  | S m => lock :: repeat false m
  end.

(** The key traffic of one step and of a batch. *)
Definition arrow_tx (k : hid_key) : list action := [KeyPress k; KeyRelease k].

Definition ascii_tx (lock : bool) (c : ascii) : list action :=
  if lock
  then [KeyPress KEY_LEFT_SHIFT; KeyWrite c; KeyRelease KEY_LEFT_SHIFT; DrawKeys (-1) false]
  else [KeyWrite c].

Definition batch_tx (k : hid_key) (c : ascii) (lock : bool) (n : nat) : list action :=
  match n with
  | O => []
  | S m => (if lock then ascii_tx true c else arrow_tx k) ++ concat (repeat (arrow_tx k) m)
  end.

Definition clear_lock (g : Globals) : Globals :=
  mkGlobals (prev_pos g) false (last_touch_zone g)
            (press_start_ms g) (last_delete_ms g) (delete_mode_active g).

Definition with_prev_pos (v : Z) (g : Globals) : Globals :=
  mkGlobals v (shift_lock g) (last_touch_zone g)
            (press_start_ms g) (last_delete_ms g) (delete_mode_active g).

(** [delta] as line 143 computes it. *)
Definition encoder_delta (s : Sample) (g : Globals) : Z :=
  wrap_long (encoder s - prev_pos g).

(** The reading order the specification's composition clause describes:
    encoder first, then touch, then button. *)
Definition loop_encoder_first (s : Sample) : M unit :=
  encoder_part s ;;
  touch_part s ;;
  button_part s.

(** Clockwise minus counter-clockwise steps in a list of intents. *)
Definition net_steps (l : list Intent) : Z :=
  Z.of_nat (count_kind MoveStepRight l) - Z.of_nat (count_kind MoveStepLeft l).

(** The test of line 115: a touch is in progress. *)
Definition touch_active (s : Sample) : bool :=
  negb (touch_state_eqb (t_state s) none).

(** ** Which branches of one iteration run *)

(** Line 126 with [zone == 0], and with [zone == 1]. *)
Definition escape_fires (s : Sample) : bool :=
  touch_state_eqb (t_state s) touch_begin && (touch_zone s =? 0).

Definition shift_toggles (s : Sample) : bool :=
  touch_state_eqb (t_state s) touch_begin && (touch_zone s =? 1).

(** [delete_mode_active] after lines 185-188. *)
Definition still_repeating (s : Sample) (g : Globals) : bool :=
  delete_mode_active g && negb (wasReleased s).

(** The test of line 194. *)
Definition long_press_starts (s : Sample) (g : Globals) : bool :=
  negb (still_repeating s g) && pressedFor_3000 s.

(** [delete_mode_active] after line 199, which is its value when the
    iteration ends. *)
Definition repeating (s : Sample) (g : Globals) : bool :=
  still_repeating s g || pressedFor_3000 s.

(** [last_delete_ms] when line 204 reads it. *)
Definition last_delete_seen (s : Sample) (g : Globals) : Z :=
  if long_press_starts s g then u32 (ms_long s)
  else if delete_mode_active g && wasReleased s then 0
  else last_delete_ms g.

(** The tests of lines 201-204 taken together. *)
Definition repeat_fires (s : Sample) (g : Globals) : bool :=
  repeating s g && negb (wasReleased s)
  && (500 <=? u32 (u32 (ms_repeat s) - last_delete_seen s g)).

(** [press_start_ms] when line 212 reads it. *)
Definition press_start_seen (s : Sample) (g : Globals) : Z :=
  if wasPressed s then u32 (ms_press s) else press_start_ms g.

(** The test of line 211, and of lines 211-213 taken together. *)
Definition release_handled (s : Sample) (g : Globals) : bool :=
  negb (repeating s g) && wasReleased s.

Definition enter_fires (s : Sample) (g : Globals) : bool :=
  release_handled s g
  && (held_ms (press_start_seen s g) (u32 (ms_release s)) <? 3000).

(** ** Traces *)

(** The intents of consecutive iterations, starting with no key held. *)
Definition trace_intents (ss : list Sample) (g : Globals) : list Intent :=
  intents_of false (snd (run_loop ss g)).

Definition final_globals (ss : list Sample) (g : Globals) : Globals :=
  fst (run_loop ss g).

(** Encoder counts small enough that no difference of two of them
    overflows a [long]. *)
Definition encoder_small (z : Z) : Prop := - 2 ^ 30 < z < 2 ^ 30.

(** The encoder reading of the last sample ([p] when there is none). *)
Fixpoint last_encoder (p : Z) (ss : list Sample) : Z :=
  match ss with
  | [] => p
  | s :: rest => last_encoder (encoder s) rest
  end.

(** Readings that never decrease, starting from [p]. *)
Fixpoint clockwise_from (p : Z) (ss : list Sample) : Prop :=
  match ss with
  | [] => True
  | s :: rest => p <= encoder s /\ clockwise_from (encoder s) rest
  end.

(** ** Concrete samples *)

(** Nothing touched, nothing pressed, the encoder at [e]. *)
Definition poll_encoder (e : Z) : Sample :=
  mkSample none 0 240 e false false false 0 0 0 0.

(** A touch sample on the 240-pixel-wide display, the encoder at [e]. *)
Definition poll_touch (st : touch_state_t) (x e : Z) : Sample :=
  mkSample st x 240 e false false false 0 0 0 0.

(** A button sample: the three queries, and the clock (every [millis()]
    call of the iteration reads [now]), the encoder at [e]. *)
Definition poll_button (pressed released held3s : bool) (now e : Z) : Sample :=
  mkSample none 0 240 e pressed released held3s now now now now.

(** A long press during which the dial was turned.  [M5Dial.update()]
    sees the button go down at 1000 ms; the same iteration first sends
    ten encoder steps, so line 191 reads the clock at 1040 ms.  At
    4000 ms [pressedFor(3000)] holds and Delete is sent.  The button is
    let go right after and the next iteration sees the release at
    4005 ms. *)
Definition race_press : Sample :=
  mkSample none 0 240 40 true false false 1040 1040 1040 1040.
Definition race_hold : Sample :=
  mkSample none 0 240 40 false false true 4000 4004 4004 4004.
Definition race_release : Sample :=
  mkSample none 0 240 40 false true false 4005 4005 4005 4005.
Definition long_press_race : list Sample := [race_press; race_hold; race_release].

(** The button held from [t] on, polled every [dt] ms for [n] polls,
    with [pressedFor(3000)] true throughout. *)
Fixpoint held_polls (n : nat) (t dt : Z) : list Sample :=
  match n with
  | O => []
  | S k => poll_button false false true t 0 :: held_polls k (t + dt) dt
  end.

(** ** Colours and the picture drawn by [draw_keys] *)

(** [uint8_t] and [uint16_t]. *)
Definition uint8 (z : Z) : Z := z mod 2 ^ 8.
Definition uint16 (z : Z) : Z := z mod 2 ^ 16.

(** [float] is IEEE 754 binary32: 24 bits of precision, rounding to
    nearest even. *)
Definition float_mul : spec_float -> spec_float -> spec_float := SFmul 24 128.
Definition float_div : spec_float -> spec_float -> spec_float := SFdiv 24 128.
Definition float_of_int (z : Z) : spec_float := binary_normalize 24 128 z 0 false.

(** Conversion of a [float] to an integer type discards the fraction.
    C++ leaves it undefined when the result does not fit; the model then
    takes the low bits, and for what is not a number 0. *)
Definition int_of_float (x : spec_float) : Z :=
  match x with
  | S754_finite s m e =>
      let a := if 0 <=? e then Zpos m * 2 ^ e else Zpos m / 2 ^ (- e) in
      if s then - a else a
  | _ => 0
  end.

(** The literal [0.7f]: 11744051 * 2^-24. *)
Definition factor_0_7 : spec_float := S754_finite false 11744051 (-24).

(** Lines 18-20. *)
Definition COLOR_ESC : Z := 0xF800.
Definition COLOR_SHIFT : Z := 0x001F.
Definition COLOR_TEXT : Z := 0xFFFF.

(** The three fields of an RGB565 colour, lines 23-25. *)
Definition red (c : Z) : Z := uint8 (Z.land (Z.shiftr c 11) 0x1F).
Definition green (c : Z) : Z := uint8 (Z.land (Z.shiftr c 5) 0x3F).
Definition blue (c : Z) : Z := uint8 (Z.land c 0x1F).

(** Lines 26-28: [(uint8_t)(r * factor)]. *)
Definition scale (channel : Z) (factor : spec_float) : Z :=
  uint8 (int_of_float (float_mul (float_of_int channel) factor)).

(** [darken(c, factor)], lines 22-30. *)
Definition darken (c : Z) (factor : spec_float) : Z :=
  let r := red c in
  let g := green c in
  let b := blue c in
  let r := scale r factor in
  let g := scale g factor in
  let b := scale b factor in
  uint16 (Z.lor (Z.lor (Z.shiftl r 11) (Z.shiftl g 5)) b).

(** The calls [draw_keys] makes on [M5Dial.Display]. *)
Inductive textdatum_t : Type := middle_center.

Inductive display_cmd : Type :=
| fillRect (x y w h : Z) (color : Z)
| setTextColor (color : Z)
| setTextDatum (datum : textdatum_t)
| setTextSize (size : Z)
| drawString (text : String.string) (x y : Z).

(** The body of [draw_keys(pressed_zone)], lines 33-56, for a display
    of [w] by [h] pixels.  None of its [int] operations can overflow. *)
Definition draw_keys_display (w h : Z) (lock : bool) (pressed_zone : Z)
  : list display_cmd :=
  let hw := Z.quot w 2 in
  let esc_bg := COLOR_ESC in
  let sh_base := if lock then 0x021F else COLOR_SHIFT in
  let sh_bg := if pressed_zone =? 1 then darken sh_base factor_0_7 else sh_base in
  let esc_bg := if pressed_zone =? 0 then darken esc_bg factor_0_7 else esc_bg in
  [fillRect 0 0 hw h esc_bg;
   fillRect hw 0 (w - hw) h sh_bg;
   setTextColor COLOR_TEXT;
   setTextDatum middle_center;
   setTextSize 2;
   drawString "ESC"%string (Z.quot hw 2) (Z.quot h 2)]
  ++ (if lock then
        let cy := Z.quot h 2 in
        [drawString "Shift"%string (hw + Z.quot (w - hw) 2) (cy - 12);
         drawString "Lock"%string (hw + Z.quot (w - hw) 2) (cy + 12)]
      else
        [drawString "Shift"%string (hw + Z.quot (w - hw) 2) (Z.quot h 2)]).

(** What an action puts on a display of [w] by [h] pixels. *)
Definition display_of (w h : Z) (a : action) : list display_cmd :=
  match a with
  | DrawKeys pressed_zone lock => draw_keys_display w h lock pressed_zone
  | _ => []
  end.

(** [fillRect(x0, y0, w, h, color)] paints the pixels with
    [x0 <= x < x0 + w] and [y0 <= y < y0 + h]. *)
Definition fills (c : display_cmd) (x y : Z) : option Z :=
  match c with
  | fillRect x0 y0 w h color =>
      if (x0 <=? x) && (x <? x0 + w) && (y0 <=? y) && (y <? y0 + h)
      then Some color else None
  | _ => None
  end.

(** The background colour of pixel [(x, y)] after a run of commands:
    that of the last rectangle painted over it, [under] if there is
    none. *)
Fixpoint background_at (cmds : list display_cmd) (x y : Z) (under : option Z)
  : option Z :=
  match cmds with
  | [] => under
  | c :: rest =>
      background_at rest x y
        (match fills c x y with Some color => Some color | None => under end)
  end.

(** How [draw_keys] reads its argument: 0, 1, or anything else. *)
Definition pressed_class (pressed_zone : Z) : Z :=
  if pressed_zone =? 0 then 0 else if pressed_zone =? 1 then 1 else -1.

(** The lock flag shown by the latest [draw_keys] call of a run. *)
Fixpoint shown_lock (shown : bool) (l : list action) : bool :=
  match l with
  | [] => shown
  | DrawKeys _ lock :: r => shown_lock lock r
  | _ :: r => shown_lock shown r
  end.

(** ** Keys held down *)

Definition hid_key_eqb (a b : hid_key) : bool :=
  match a, b with
  | KEY_ESC, KEY_ESC | KEY_LEFT_SHIFT, KEY_LEFT_SHIFT | KEY_DELETE, KEY_DELETE
  | KEY_RIGHT_ARROW, KEY_RIGHT_ARROW | KEY_DOWN_ARROW, KEY_DOWN_ARROW
  | KEY_LEFT_ARROW, KEY_LEFT_ARROW => true
  | _, _ => false
  end.

(** Whether a run of actions presses key [k]. *)
Definition presses (k : hid_key) (l : list action) : bool :=
  existsb (fun a => match a with KeyPress k' => hid_key_eqb k k' | _ => false end) l.

(** Follow a run of actions with the stack of keys currently down
    (latest first).  The run is refused ([None]) when it presses a key
    that is down, releases a key other than the latest pressed, or
    writes a character while anything but the left shift key is down. *)
Fixpoint keys_down (down : list hid_key) (l : list action) : option (list hid_key) :=
  match l with
  | [] => Some down
  | KeyPress k :: r =>
      if existsb (hid_key_eqb k) down then None else keys_down (k :: down) r
  | KeyRelease k :: r =>
      match down with
      | k' :: d => if hid_key_eqb k k' then keys_down d r else None
      | [] => None
      end
  | KeyWrite _ :: r =>
      match down with
      | [] | [KEY_LEFT_SHIFT] => keys_down down r
      | _ => None
      end
  | DrawKeys _ _ :: r => keys_down down r
  end.

(** ** The build without [KEY_LR_MODE] *)

(** [sendKey(c)], lines 75-78. *)
Definition sendKey (c : ascii) : M unit := emit (KeyWrite c).

(** The loop bodies of lines 148-159 and 166-177 when [KEY_LR_MODE] is
    not defined. *)
Definition step_right_ascii : M unit :=
  l <- gets shift_lock ;;
  if l then sendAsciiWithOptionalShift "d"%char else sendKey "d"%char.

Definition step_left_ascii : M unit :=
  l <- gets shift_lock ;;
  if l then sendAsciiWithOptionalShift "a"%char else sendKey "a"%char.

(** Lines 142-182 in that build. *)
Definition encoder_part_ascii (s : Sample) : M unit :=
  let curr := encoder s in
  prev <- gets prev_pos ;;
  let delta := wrap_long (curr - prev) in
  if negb (delta =? 0) then
    if 0 <? delta then
      let steps := Z.quot delta 4 in
      for_steps steps step_right_ascii ;;
      p <- gets prev_pos ;;
      set_prev_pos (wrap_long (p + wrap_long (steps * 4)))
    else
      let steps := Z.quot (wrap_long (- delta)) 4 in
      for_steps steps step_left_ascii ;;
      p <- gets prev_pos ;;
      set_prev_pos (wrap_long (p - wrap_long (steps * 4)))
  else ret tt.

Definition loop_ascii (s : Sample) : M unit :=
  touch_part s ;;
  encoder_part_ascii s ;;
  button_part s.

(** The key traffic of a batch in that build. *)
Definition batch_tx_ascii (c : ascii) (lock : bool) (n : nat) : list action :=
  match n with
  | O => []
  | S m => ascii_tx lock c ++ concat (repeat [KeyWrite c] m)
  end.

(** The key traffic of the default build rewritten for that build: a
    press and release of the right arrow becomes a written 'd', a press
    and release of the down arrow a written 'a', and every other action
    stays as it is. *)
Fixpoint plain_keys (l : list action) : list action :=
  match l with
  | KeyPress KEY_RIGHT_ARROW :: KeyRelease KEY_RIGHT_ARROW :: r =>
      KeyWrite "d" :: plain_keys r
  | KeyPress KEY_DOWN_ARROW :: KeyRelease KEY_DOWN_ARROW :: r =>
      KeyWrite "a" :: plain_keys r
  | a :: r => a :: plain_keys r
  | [] => []
  end.

(** ** Quiet samples and clocks *)

(** A sample that gives the code nothing to do in state [g]: no touch
    begins or ends and the zone is the recorded one, the encoder is less
    than one step from [prev_pos], and the button reports nothing. *)
Definition quiet (g : Globals) (s : Sample) : Prop :=
  t_state s <> touch_begin /\ t_state s <> touch_end
  /\ touch_zone s = last_touch_zone g
  /\ Z.abs (encoder s - prev_pos g) < 4
  /\ wasPressed s = false /\ wasReleased s = false /\ pressedFor_3000 s = false.

(** Samples of a button that stays down, whose line-203 clock readings
    never go back, starting from [t], and stay below 2^32. *)
Fixpoint held_clock_from (t : Z) (ss : list Sample) : Prop :=
  match ss with
  | [] => True
  | s :: rest =>
      wasReleased s = false
      /\ t <= ms_repeat s < 2 ^ 32
      /\ held_clock_from (ms_repeat s) rest
  end.

(** The line-203 reading of the last sample ([t] when there is none). *)
Fixpoint last_clock (t : Z) (ss : list Sample) : Z :=
  match ss with
  | [] => t
  | s :: rest => last_clock (ms_repeat s) rest
  end.

(** How many samples of a trace flip the lock. *)
Definition toggle_count (ss : list Sample) : nat :=
  length (filter shift_toggles ss).

(** The pressed zone shown by the latest [draw_keys] call of a run. *)
Fixpoint shown_zone (shown : Z) (l : list action) : Z :=
  match l with
  | [] => shown
  | DrawKeys pressed_zone _ :: r => shown_zone pressed_zone r
  | _ :: r => shown_zone shown r
  end.

(** How many samples of a trace begin a touch in the Escape zone. *)
Definition escape_count (ss : list Sample) : nat :=
  length (filter escape_fires ss).

(** ** Exhaustive checks *)

(** [p] holds on the [n] integers from [z] on. *)
Fixpoint holds_from (n : nat) (z : Z) (p : Z -> bool) : bool :=
  match n with
  | O => true
  | S k => p z && holds_from k (z + 1) p
  end.

(** Packing three fields as line 29 does and reading them back. *)
Definition test_pack (r g b : Z) : bool :=
  let c := uint16 (Z.lor (Z.lor (Z.shiftl r 11) (Z.shiftl g 5)) b) in
  (red c =? r) && (green c =? g) && (blue c =? b).

(** * Properties *)

(** ** Machine arithmetic *)

Lemma wrap_long_id (z : Z) : in_long z -> wrap_long z = z.
Proof.
  unfold in_long, long_min, long_max, wrap_long. intros H.
  rewrite Z.mod_small; lia.
Qed.

Lemma u32_id (z : Z) : 0 <= z < 2 ^ 32 -> u32 z = z.
Proof. unfold u32. intros H. now apply Z.mod_small. Qed.

Lemma u32_range (z : Z) : 0 <= u32 z < 2 ^ 32.
Proof. unfold u32. apply Z.mod_pos_bound. lia. Qed.

(** ** Running the procedures *)

Lemma clear_lock_unlocked (g : Globals) : shift_lock g = false -> clear_lock g = g.
Proof. destruct g; simpl; intros ->; reflexivity. Qed.

Lemma sendAscii_run (c : ascii) (g : Globals) :
  sendAsciiWithOptionalShift c g = (tt, clear_lock g, ascii_tx (shift_lock g) c).
Proof. destruct g as [p [|] z ps ld d]; reflexivity. Qed.

Lemma sendDelete_run (g : Globals) :
  sendDelete g = (tt, g, arrow_tx KEY_DELETE).
Proof. reflexivity. Qed.

Lemma sendEsc_run (g : Globals) :
  sendEsc g = (tt, g, arrow_tx KEY_ESC).
Proof. reflexivity. Qed.

Lemma batch_tx_unlocked (k : hid_key) (c : ascii) (n : nat) :
  batch_tx k c false n = concat (repeat (arrow_tx k) n).
Proof. destruct n; reflexivity. Qed.

Lemma step_right_run (g : Globals) :
  step_right g = (tt, clear_lock g, batch_tx KEY_RIGHT_ARROW "d" (shift_lock g) 1).
Proof. destruct g as [p [|] z ps ld d]; reflexivity. Qed.

Lemma step_left_run (g : Globals) :
  step_left g = (tt, clear_lock g, batch_tx KEY_DOWN_ARROW "a" (shift_lock g) 1).
Proof. destruct g as [p [|] z ps ld d]; reflexivity. Qed.

Section Batches.

(** One direction of rotation: its arrow key, its shifted character,
    and the loop body that sends one step. *)
Variables (k : hid_key) (c : ascii) (body : M unit).
Hypothesis body_run :
  forall g, body g = (tt, clear_lock g, batch_tx k c (shift_lock g) 1).

Lemma repeat_body_run (n : nat) (g : Globals) :
  repeat_body n body g
  = (tt, match n with O => g | S _ => clear_lock g end,
     batch_tx k c (shift_lock g) n).
Proof.
  revert g. induction n as [|n IH]; intros g; [reflexivity|].
  cbn [repeat_body]. unfold bind at 1.
  rewrite body_run, IH.
  replace (match n with O => clear_lock g | S _ => clear_lock (clear_lock g) end)
    with (clear_lock g) by (destruct n; reflexivity).
  f_equal.
  change (shift_lock (clear_lock g)) with false.
  rewrite batch_tx_unlocked.
  destruct (shift_lock g); cbn [batch_tx repeat concat ascii_tx arrow_tx app];
    rewrite ?app_nil_r; reflexivity.
Qed.

End Batches.

Lemma for_steps_right_run (steps : Z) (g : Globals) :
  for_steps steps step_right g
  = (tt, match Z.to_nat steps with O => g | S _ => clear_lock g end,
     batch_tx KEY_RIGHT_ARROW "d" (shift_lock g) (Z.to_nat steps)).
Proof. apply repeat_body_run, step_right_run. Qed.

Lemma for_steps_left_run (steps : Z) (g : Globals) :
  for_steps steps step_left g
  = (tt, match Z.to_nat steps with O => g | S _ => clear_lock g end,
     batch_tx KEY_DOWN_ARROW "a" (shift_lock g) (Z.to_nat steps)).
Proof. apply repeat_body_run, step_left_run. Qed.
Lemma intents_of_app (sd : bool) (a b : list action) :
  intents_of sd (a ++ b) = intents_of sd a ++ intents_of (shift_after sd a) b.
Proof.
  revert sd. induction a as [|x a IH]; intros sd; [reflexivity|].
  destruct x as [[]|[]|c|z l]; cbn [app intents_of shift_after]; rewrite ?IH; try reflexivity.
  all: unfold emit_intent; cbn; try reflexivity.
  destruct (kind_of_char c); reflexivity.
Qed.

Lemma shift_after_app (sd : bool) (a b : list action) :
  shift_after sd (a ++ b) = shift_after (shift_after sd a) b.
Proof.
  revert sd. induction a as [|x a IH]; intros sd; [reflexivity|].
  destruct x as [[]|[]|c|z l]; cbn [app shift_after]; apply IH.
Qed.

Lemma encoder_part_run (s : Sample) (g : Globals) :
  encoder_part s g =
  let delta := encoder_delta s g in
  if delta =? 0 then (tt, g, [])
  else if 0 <? delta then
    let steps := Z.quot delta 4 in
    (tt,
     with_prev_pos (wrap_long (prev_pos g + wrap_long (steps * 4)))
                   (match Z.to_nat steps with O => g | S _ => clear_lock g end),
     batch_tx KEY_RIGHT_ARROW "d" (shift_lock g) (Z.to_nat steps))
  else
    let steps := Z.quot (wrap_long (- delta)) 4 in
    (tt,
     with_prev_pos (wrap_long (prev_pos g - wrap_long (steps * 4)))
                   (match Z.to_nat steps with O => g | S _ => clear_lock g end),
     batch_tx KEY_DOWN_ARROW "a" (shift_lock g) (Z.to_nat steps)).
Proof.
  unfold encoder_part, encoder_delta. cbv zeta.
  unfold bind at 1. cbn [gets].
  destruct (wrap_long (encoder s - prev_pos g) =? 0); [reflexivity|]. cbn [negb].
  destruct (0 <? wrap_long (encoder s - prev_pos g)).
  - unfold bind. rewrite for_steps_right_run. cbn [gets set_prev_pos modify].
    rewrite app_nil_r. 
    destruct (Z.to_nat _); reflexivity.
  - unfold bind. rewrite for_steps_left_run. cbn [gets set_prev_pos modify].
    rewrite app_nil_r. 
    destruct (Z.to_nat _); reflexivity.
Qed.

Lemma intents_arrows (k : hid_key) (kind : IntentKind) (n : nat) :
  kind_of_key k = Some kind ->
  intents_of false (concat (repeat (arrow_tx k) n)) = repeat (kind, false) n
  /\ shift_after false (concat (repeat (arrow_tx k) n)) = false.
Proof.
  intros Hk. induction n as [|n [IH1 IH2]]; [split; reflexivity|].
  cbn [repeat concat]. rewrite intents_of_app, shift_after_app.
  assert (Hs : shift_after false (arrow_tx k) = false)
    by (destruct k; try reflexivity; discriminate).
  rewrite Hs, IH1, IH2. split; [|reflexivity].
  destruct k; try discriminate; cbn in Hk |- *; injection Hk as <-; reflexivity.
Qed.

Lemma intents_batch_tx (k : hid_key) (c : ascii) (kind : IntentKind)
                       (lock : bool) (n : nat) :
  kind_of_key k = Some kind ->
  kind_of_char c = Some kind ->
  intents_of false (batch_tx k c lock n) = step_batch kind lock n
  /\ shift_after false (batch_tx k c lock n) = false.
Proof.
  intros Hk Hc. destruct n as [|n]; [split; reflexivity|].
  destruct (intents_arrows k kind n Hk) as [I1 I2].
  destruct (intents_arrows k kind 1 Hk) as [J1 J2].
  cbn [repeat concat] in J1, J2. rewrite app_nil_r in J1, J2.
  unfold batch_tx, step_batch.
  rewrite intents_of_app, shift_after_app.
  destruct lock.
  - cbn [ascii_tx intents_of shift_after]. rewrite Hc, I1, I2. split; reflexivity.
  - rewrite J1, J2, I1, I2. split; reflexivity.
Qed.

Lemma intents_right_batch (lock : bool) (n : nat) :
  intents_of false (batch_tx KEY_RIGHT_ARROW "d" lock n) = step_batch MoveStepRight lock n
  /\ shift_after false (batch_tx KEY_RIGHT_ARROW "d" lock n) = false.
Proof. apply intents_batch_tx; reflexivity. Qed.

Lemma intents_left_batch (lock : bool) (n : nat) :
  intents_of false (batch_tx KEY_DOWN_ARROW "a" lock n) = step_batch MoveStepLeft lock n
  /\ shift_after false (batch_tx KEY_DOWN_ARROW "a" lock n) = false.
Proof. apply intents_batch_tx; reflexivity. Qed.

(** The signed number of steps an encoder poll sends. *)
Lemma encoder_part_intents (s : Sample) (g : Globals) :
  let delta := encoder_delta s g in
  intents (encoder_part s g) =
    (if delta =? 0 then []
     else if 0 <? delta
          then step_batch MoveStepRight (shift_lock g) (Z.to_nat (Z.quot delta 4))
          else step_batch MoveStepLeft (shift_lock g)
                          (Z.to_nat (Z.quot (wrap_long (- delta)) 4)))
  /\ shift_after false (actions_of (encoder_part s g)) = false.
Proof.
  cbv zeta. unfold intents. rewrite encoder_part_run. cbv zeta.
  destruct (encoder_delta s g =? 0); [split; reflexivity|].
  destruct (0 <? encoder_delta s g); cbn [actions_of snd].
  - apply intents_right_batch.
  - apply intents_left_batch.
Qed.

Lemma button_part_run (s : Sample) (g : Globals) :
  button_part s g =
  (tt,
   mkGlobals (prev_pos g) (shift_lock g && negb (enter_fires s g))
             (last_touch_zone g)
             (if release_handled s g then 0 else press_start_seen s g)
             (if repeat_fires s g then u32 (ms_repeat s) else last_delete_seen s g)
             (repeating s g),
   (if long_press_starts s g then arrow_tx KEY_DELETE else [])
   ++ (if repeat_fires s g then arrow_tx KEY_DELETE else [])
   ++ (if enter_fires s g then ascii_tx (shift_lock g) "010" else [])).
Proof.
  unfold enter_fires, release_handled, repeat_fires, last_delete_seen,
    press_start_seen, long_press_starts, repeating, still_repeating.
  destruct g as [p lock z ps ld d], s as [ts x w e wp wr pf m1 m2 m3 m4].
  destruct d, wr, wp, pf;
    cbv beta iota zeta delta
        [button_part bind gets when modify emit ret sendDelete
         sendAsciiWithOptionalShift draw_keys set_delete_mode_active
         set_last_delete_ms set_press_start_ms set_shift_lock
         delete_mode_active last_delete_ms press_start_ms prev_pos
         shift_lock last_touch_zone andb orb negb app arrow_tx ascii_tx
         wasReleased wasPressed pressedFor_3000 ms_press ms_long ms_repeat
         ms_release];
    repeat match goal with
           | |- context [500 <=? ?a] => destruct (500 <=? a)
           | |- context [held_ms ?a ?b <? 3000] => destruct (held_ms a b <? 3000)
           end;
    try reflexivity; destruct lock; reflexivity.
Qed.

Lemma zone_not_both (zone : Z) : (zone =? 0) && (zone =? 1) = false.
Proof. destruct (Z.eqb_spec zone 0); [subst; reflexivity|reflexivity]. Qed.

Lemma touch_part_run (s : Sample) (g : Globals) :
  touch_part s g =
  (tt,
   mkGlobals (prev_pos g) (xorb (shift_lock g) (shift_toggles s)) (touch_zone s)
             (press_start_ms g) (last_delete_ms g) (delete_mode_active g),
   (if touch_zone s =? last_touch_zone g then []
    else [DrawKeys (touch_zone s) (shift_lock g)])
   ++ (if escape_fires s then arrow_tx KEY_ESC else [])
   ++ (if shift_toggles s
       then [DrawKeys (touch_zone s) (negb (shift_lock g))] else [])
   ++ (if touch_state_eqb (t_state s) touch_end
       then [DrawKeys (-1) (shift_lock g)] else [])).
Proof.
  unfold touch_part, escape_fires, shift_toggles. cbv zeta.
  generalize (touch_zone s) as zone. intros zone.
  pose proof (zone_not_both zone) as Hz.
  destruct g as [p lock z ps ld d].
  cbn [prev_pos shift_lock last_touch_zone press_start_ms last_delete_ms
       delete_mode_active].
  destruct (t_state s);
    cbv beta iota zeta delta
        [bind gets when modify emit ret sendEsc draw_keys set_shift_lock
         set_last_touch_zone touch_state_eqb prev_pos shift_lock
         last_touch_zone press_start_ms last_delete_ms delete_mode_active
         andb negb app arrow_tx xorb];
    (destruct (zone =? z) eqn:E; [apply Z.eqb_eq in E; subst z|]);
    try reflexivity;
    destruct (zone =? 0); destruct (zone =? 1); try discriminate Hz;
    try reflexivity; destruct lock; reflexivity.
Qed.

(** ** Intents of each part and of a whole iteration *)

Lemma touch_part_intents (s : Sample) (g : Globals) :
  intents (touch_part s g) = (if escape_fires s then [(Escape, false)] else [])
  /\ shift_after false (actions_of (touch_part s g)) = false.
Proof.
  unfold intents. rewrite touch_part_run. cbn [actions_of snd].
  destruct (touch_zone s =? last_touch_zone g), (escape_fires s),
    (shift_toggles s), (touch_state_eqb (t_state s) touch_end);
    split; reflexivity.
Qed.

Lemma button_part_intents (s : Sample) (g : Globals) :
  intents (button_part s g)
  = (if long_press_starts s g then [(Delete, false)] else [])
    ++ (if repeat_fires s g then [(Delete, false)] else [])
    ++ (if enter_fires s g then [(Enter, shift_lock g)] else [])
  /\ shift_after false (actions_of (button_part s g)) = false.
Proof.
  unfold intents. rewrite button_part_run. cbn [actions_of snd].
  destruct (long_press_starts s g), (repeat_fires s g), (enter_fires s g),
    (shift_lock g); split; reflexivity.
Qed.

Lemma loop_run (s : Sample) (g : Globals) :
  let rt := touch_part s g in
  let re := encoder_part s (state_of rt) in
  let rb := button_part s (state_of re) in
  loop s g = (tt, state_of rb, actions_of rt ++ actions_of re ++ actions_of rb).
Proof.
  cbv zeta. unfold loop, bind, state_of, actions_of.
  destruct (touch_part s g) as [[[] g1] l1]. cbn [fst snd].
  destruct (encoder_part s g1) as [[[] g2] l2]. cbn [fst snd].
  destruct (button_part s g2) as [[[] g3] l3]. reflexivity.
Qed.

Lemma loop_intents (s : Sample) (g : Globals) :
  let rt := touch_part s g in
  let re := encoder_part s (state_of rt) in
  let rb := button_part s (state_of re) in
  intents (loop s g) = intents rt ++ intents re ++ intents rb
  /\ shift_after false (actions_of (loop s g)) = false.
Proof.
  cbv zeta. unfold intents. rewrite loop_run. cbn [actions_of snd].
  destruct (touch_part_intents s g) as [_ Ht].
  destruct (encoder_part_intents s (state_of (touch_part s g))) as [_ He].
  destruct (button_part_intents s
              (state_of (encoder_part s (state_of (touch_part s g))))) as [_ Hb].
  unfold actions_of in *.
  rewrite !intents_of_app, !shift_after_app, Ht, He, Hb. split; reflexivity.
Qed.

(** ** Touch zones *)

Lemma half_width_bounds (w : Z) :
  (0 <= w -> 0 <= Z.quot w 2 <= w) /\ (w < 0 -> w <= Z.quot w 2 <= 0).
Proof. split; intros H; Z.to_euclidean_division_equations; lia. Qed.

(** C8. The zone is Escape (0) exactly when a touch is active and
    [0 <= x < w/2], Shift (1) exactly when a touch is active and
    [w/2 <= x < w], and None (-1) in every other case: an inactive touch
    or a coordinate outside [0, w). *)
Theorem touch_zone_classification (s : Sample) :
  (touch_zone s = 0 <->
     touch_active s = true /\ 0 <= t_x s < Z.quot (width s) 2)
  /\ (touch_zone s = 1 <->
        touch_active s = true /\ Z.quot (width s) 2 <= t_x s < width s)
  /\ (touch_zone s = -1 <->
        ~ (touch_active s = true /\ 0 <= t_x s < width s))
  /\ (touch_zone s = 0 \/ touch_zone s = 1 \/ touch_zone s = -1).
Proof.
  unfold touch_zone, touch_active.
  destruct (half_width_bounds (width s)) as [Hpos Hneg].
  destruct (negb (touch_state_eqb (t_state s) none)).
  - destruct (Z.leb_spec 0 (t_x s)), (Z.ltb_spec (t_x s) (width s)); cbn [andb];
      try destruct (Z.ltb_spec (t_x s) (Z.quot (width s) 2));
      repeat split; intros; try discriminate; try lia; intuition (try lia).
  - repeat split; intros; try discriminate; try lia; intuition (try discriminate).
Qed.

Lemma touch_zone_classification_witness :
  touch_zone (poll_touch touch_begin 10 0) = 0
  /\ touch_zone (poll_touch touch_begin 200 0) = 1
  /\ touch_zone (poll_touch touch_begin 240 0) = -1.
Proof.
  split; [|split].
  - apply (proj1 (touch_zone_classification (poll_touch touch_begin 10 0))).
    vm_compute. intuition discriminate.
  - apply (proj1 (proj2 (touch_zone_classification (poll_touch touch_begin 200 0)))).
    vm_compute. intuition discriminate.
  - apply (proj1 (proj2 (proj2 (touch_zone_classification (poll_touch touch_begin 240 0))))).
    vm_compute. intros [_ [_ H]]. discriminate H.
Defined.

(** ** Encoder *)

(** When the subtraction and the negation on lines 143 and 164 do not
    overflow, the encoder code computes with the exact integers. *)
Lemma encoder_part_exact (s : Sample) (g : Globals) :
  long_min < encoder s - prev_pos g <= long_max ->
  let d := encoder s - prev_pos g in
  let r := encoder_part s g in
  intents r
  = (if 0 <? d
     then step_batch MoveStepRight (shift_lock g) (Z.to_nat (d / 4))
     else step_batch MoveStepLeft (shift_lock g) (Z.to_nat (Z.abs d / 4)))
  /\ shift_lock (state_of r) = shift_lock g && (Z.abs d / 4 =? 0)
  /\ (in_long (encoder s) -> in_long (prev_pos g) ->
      prev_pos (state_of r) = prev_pos g + 4 * Z.quot d 4).
Proof.
  intros Hd. cbv zeta.
  destruct (encoder_part_intents s g) as [Hi _]. cbv zeta in Hi. rewrite Hi.
  rewrite encoder_part_run. cbv zeta. unfold encoder_delta.
  assert (Hw : wrap_long (encoder s - prev_pos g) = encoder s - prev_pos g)
    by (apply wrap_long_id; unfold in_long; lia).
  rewrite Hw. set (d := encoder s - prev_pos g) in *.
  unfold in_long, long_min, long_max in *.
  destruct (Z.eqb_spec d 0) as [E|E].
  - rewrite E. cbn. split; [reflexivity|]. split; [now rewrite andb_true_r|].
    intros _ _. lia.
  - destruct (Z.ltb_spec 0 d) as [P|P].
    + assert (Hq : Z.quot d 4 = d / 4) by (apply Z.quot_div_nonneg; lia).
      assert (Ha : Z.abs d / 4 = d / 4) by (rewrite Z.abs_eq; lia).
      assert (Hb : 0 <= d / 4 /\ d / 4 * 4 <= d) by (Z.to_euclidean_division_equations; lia).
      rewrite Hq, Ha. unfold state_of. cbn [fst snd].
      split; [reflexivity|]. split.
      * destruct (Z.eqb_spec (d / 4) 0) as [Z0|Z0].
        -- rewrite Z0. cbn. now rewrite andb_true_r.
        -- destruct (Z.to_nat (d / 4)) eqn:N; [lia|]. cbn. now rewrite andb_false_r.
      * intros Hc Hp.
        cbn [with_prev_pos prev_pos].
        rewrite (wrap_long_id (d / 4 * 4)) by (unfold in_long, long_min, long_max; lia).
        rewrite wrap_long_id by (unfold in_long, long_min, long_max; lia). lia.
    + assert (Hn : wrap_long (- d) = - d)
        by (apply wrap_long_id; unfold in_long, long_min, long_max; lia).
      rewrite Hn.
      assert (Ha : Z.abs d = - d) by lia.
      assert (Hq : Z.quot (- d) 4 = (- d) / 4) by (apply Z.quot_div_nonneg; lia).
      assert (Hq' : Z.quot d 4 = - ((- d) / 4))
        by (rewrite <- Hq, Z.quot_opp_l by lia; lia).
      assert (Hb : 0 <= (- d) / 4 /\ (- d) / 4 * 4 <= - d) by (Z.to_euclidean_division_equations; lia).
      rewrite Hq, Ha, Hq'. unfold state_of. cbn [fst snd].
      split; [reflexivity|]. split.
      * destruct (Z.eqb_spec ((- d) / 4) 0) as [Z0|Z0].
        -- rewrite Z0. cbn. now rewrite andb_true_r.
        -- destruct (Z.to_nat ((- d) / 4)) eqn:N; [lia|]. cbn. now rewrite andb_false_r.
      * intros Hc Hp.
        cbn [with_prev_pos prev_pos].
        rewrite (wrap_long_id ((- d) / 4 * 4)) by (unfold in_long, long_min, long_max; lia).
        rewrite wrap_long_id by (unfold in_long, long_min, long_max; lia). lia.
Qed.

Lemma step_batch_length (k : IntentKind) (lock : bool) (n : nat) :
  length (step_batch k lock n) = n.
Proof. destruct n; cbn; [reflexivity|]. now rewrite repeat_length. Qed.

(** The keys of an encoder poll.  With [delta] the value line 143
    computes for [current - previous] (the exact difference whenever that
    fits a [long]): a positive delta sends [delta / 4] steps on the right
    arrow, a negative delta sends [|delta| / 4] steps on the down arrow,
    in both cases with the first one replaced by shift and 'd' or 'a'
    when the lock is set, and a zero delta sends nothing.  The negation
    on line 164 must not overflow, which C++ requires. *)
Lemma encoder_part_keys (s : Sample) (g : Globals) :
  let delta := encoder_delta s g in
  (in_long (encoder s - prev_pos g) -> delta = encoder s - prev_pos g)
  /\ (0 < delta ->
        actions_of (encoder_part s g)
        = batch_tx KEY_RIGHT_ARROW "d" (shift_lock g) (Z.to_nat (delta / 4)))
  /\ (delta < 0 -> long_min < delta ->
        actions_of (encoder_part s g)
        = batch_tx KEY_DOWN_ARROW "a" (shift_lock g) (Z.to_nat (Z.abs delta / 4)))
  /\ (delta = 0 -> actions_of (encoder_part s g) = []).
Proof.
  cbv zeta. rewrite encoder_part_run. cbv zeta.
  split; [|split; [|split]].
  - apply wrap_long_id.
  - intros P.
    destruct (Z.eqb_spec (encoder_delta s g) 0); [lia|].
    destruct (Z.ltb_spec 0 (encoder_delta s g)); [|lia].
    cbn [actions_of snd]. now rewrite Z.quot_div_nonneg by lia.
  - intros N Hmin.
    destruct (Z.eqb_spec (encoder_delta s g) 0); [lia|].
    destruct (Z.ltb_spec 0 (encoder_delta s g)); [lia|].
    assert (Hrange : long_min <= encoder_delta s g <= long_max).
    { unfold encoder_delta, wrap_long, long_min, long_max.
      pose proof (Z.mod_pos_bound (encoder s - prev_pos g + 2 ^ 31) (2 ^ 32)). lia. }
    cbn [actions_of snd].
    rewrite wrap_long_id by (unfold in_long, long_min, long_max in *; lia).
    rewrite Z.quot_div_nonneg by lia.
    now replace (Z.abs (encoder_delta s g)) with (- encoder_delta s g) by lia.
  - intros E. now rewrite E.
Qed.

(** ** Counting intents *)

Lemma count_kind_app (k : IntentKind) (a b : list Intent) :
  count_kind k (a ++ b) = (count_kind k a + count_kind k b)%nat.
Proof. unfold count_kind. now rewrite filter_app, length_app. Qed.

Lemma net_steps_app (a b : list Intent) :
  net_steps (a ++ b) = net_steps a + net_steps b.
Proof. unfold net_steps. rewrite !count_kind_app. lia. Qed.

Lemma count_kind_single (k k' : IntentKind) (b : bool) :
  count_kind k [(k', b)] = if IntentKind_eqb k' k then 1%nat else O.
Proof.
  unfold count_kind, is_kind. cbn [filter fst].
  destruct (IntentKind_eqb k' k); reflexivity.
Qed.

Lemma count_kind_repeat (k k' : IntentKind) (b : bool) (n : nat) :
  count_kind k (repeat (k', b) n) = if IntentKind_eqb k' k then n else O.
Proof.
  induction n as [|n IH]; [destruct (IntentKind_eqb k' k); reflexivity|].
  change (repeat (k', b) (S n)) with ([(k', b)] ++ repeat (k', b) n).
  rewrite count_kind_app, count_kind_single, IH.
  now destruct (IntentKind_eqb k' k).
Qed.

Lemma count_kind_step_batch (k k' : IntentKind) (lock : bool) (n : nat) :
  count_kind k (step_batch k' lock n) = if IntentKind_eqb k' k then n else O.
Proof.
  destruct n as [|n]; [destruct (IntentKind_eqb k' k); reflexivity|].
  change (step_batch k' lock (S n)) with ([(k', lock)] ++ repeat (k', false) n).
  rewrite count_kind_app, count_kind_repeat, count_kind_single.
  destruct (IntentKind_eqb k' k); reflexivity.
Qed.

Lemma run_loop_cons (s : Sample) (ss : list Sample) (g : Globals) :
  run_loop (s :: ss) g
  = (fst (run_loop ss (state_of (loop s g))),
     actions_of (loop s g) ++ snd (run_loop ss (state_of (loop s g)))).
Proof. cbn [run_loop]. destruct (run_loop ss (state_of (loop s g))); reflexivity. Qed.

Lemma trace_intents_cons (s : Sample) (ss : list Sample) (g : Globals) :
  trace_intents (s :: ss) g
  = intents (loop s g) ++ trace_intents ss (state_of (loop s g)).
Proof.
  unfold trace_intents, intents. rewrite run_loop_cons. cbn [snd].
  rewrite intents_of_app.
  destruct (loop_intents s g) as [_ H]. cbv zeta in H. now rewrite H.
Qed.

Lemma final_globals_cons (s : Sample) (ss : list Sample) (g : Globals) :
  final_globals (s :: ss) g = final_globals ss (state_of (loop s g)).
Proof. unfold final_globals. now rewrite run_loop_cons. Qed.

(** The touch and button code leave [prev_pos] alone; the encoder code
    leaves everything but [prev_pos] and [shift_lock] alone. *)
Lemma touch_part_prev_pos (s : Sample) (g : Globals) :
  prev_pos (state_of (touch_part s g)) = prev_pos g.
Proof. now rewrite touch_part_run. Qed.

Lemma button_part_prev_pos (s : Sample) (g : Globals) :
  prev_pos (state_of (button_part s g)) = prev_pos g.
Proof. now rewrite button_part_run. Qed.

Lemma loop_state (s : Sample) (g : Globals) :
  state_of (loop s g)
  = state_of (button_part s (state_of (encoder_part s (state_of (touch_part s g))))).
Proof. now rewrite loop_run. Qed.

(** Only the encoder code sends steps. *)
Lemma loop_count_steps (k : IntentKind) (s : Sample) (g : Globals) :
  is_step (k, false) = true ->
  count_kind k (intents (loop s g))
  = count_kind k (intents (encoder_part s (state_of (touch_part s g)))).
Proof.
  intros Hk. destruct (loop_intents s g) as [H _]. cbv zeta in H. rewrite H.
  rewrite !count_kind_app.
  destruct (touch_part_intents s g) as [-> _].
  destruct (button_part_intents s
              (state_of (encoder_part s (state_of (touch_part s g))))) as [-> _].
  rewrite !count_kind_app.
  destruct k; try discriminate Hk;
    destruct (escape_fires s), (long_press_starts _ _), (repeat_fires _ _),
      (enter_fires _ _); cbn; lia.
Qed.

(** What one whole iteration does to the encoder bookkeeping. *)
Lemma loop_encoder_progress (s : Sample) (g : Globals) :
  encoder_small (encoder s) -> encoder_small (prev_pos g) ->
  let d := encoder s - prev_pos g in
  let g' := state_of (loop s g) in
  Z.of_nat (count_kind MoveStepRight (intents (loop s g)))
  = (if 0 <? d then d / 4 else 0)
  /\ Z.of_nat (count_kind MoveStepLeft (intents (loop s g)))
     = (if 0 <? d then 0 else Z.abs d / 4)
  /\ prev_pos g' = prev_pos g + 4 * Z.quot d 4.
Proof.
  unfold encoder_small. intros Hc Hp. cbv zeta.
  rewrite !loop_count_steps by reflexivity. rewrite loop_state, button_part_prev_pos.
  set (g1 := state_of (touch_part s g)).
  assert (Hg1 : prev_pos g1 = prev_pos g) by apply touch_part_prev_pos.
  assert (Hd : long_min < encoder s - prev_pos g1 <= long_max)
    by (rewrite Hg1; unfold long_min, long_max; lia).
  destruct (encoder_part_exact s g1 Hd) as (Hi & _ & Hpos). cbv zeta in Hi, Hpos.
  rewrite Hi, Hpos, Hg1 by (rewrite ?Hg1; unfold in_long, long_min, long_max; lia).
  set (d := encoder s - prev_pos g).
  assert (0 <= d / 4 \/ d < 0) by (Z.to_euclidean_division_equations; lia).
  assert (0 <= Z.abs d / 4) by (Z.to_euclidean_division_equations; lia).
  destruct (Z.ltb_spec 0 d); rewrite !count_kind_step_batch; cbn [IntentKind_eqb];
    repeat split; lia.
Qed.

Lemma quot_4_facts (d : Z) :
  Z.abs (d - 4 * Z.quot d 4) < 4
  /\ (0 <= d -> 0 <= 4 * Z.quot d 4 <= d /\ Z.quot d 4 = d / 4)
  /\ (d <= 0 -> d <= 4 * Z.quot d 4 <= 0 /\ Z.quot d 4 = - (Z.abs d / 4)).
Proof. Z.to_euclidean_division_equations. lia. Qed.

Lemma last_encoder_cons (p q : Z) (s : Sample) (ss : list Sample) :
  last_encoder p (s :: ss) = last_encoder q (s :: ss).
Proof. reflexivity. Qed.

(** Over any number of iterations the steps sent account exactly for the
    movement of [prev_pos], which trails the encoder by less than one
    step. *)
Lemma trace_encoder_invariant (ss : list Sample) :
  forall g,
    encoder_small (prev_pos g) ->
    Forall (fun s => encoder_small (encoder s)) ss ->
    4 * net_steps (trace_intents ss g)
    = prev_pos (final_globals ss g) - prev_pos g
    /\ encoder_small (prev_pos (final_globals ss g))
    /\ Z.abs (last_encoder (prev_pos g) ss - prev_pos (final_globals ss g)) < 4.
Proof.
  induction ss as [|s ss IH]; intros g Hp Hall.
  - unfold trace_intents, final_globals, net_steps. cbn.
    repeat split; try apply Hp; lia.
  - inversion Hall as [|? ? Hs Hrest]; subst.
    rewrite trace_intents_cons, final_globals_cons, net_steps_app.
    destruct (loop_encoder_progress s g Hs Hp) as (Hr & Hl & Hpos).
    cbv zeta in Hr, Hl, Hpos.
    set (g' := state_of (loop s g)) in *.
    set (d := encoder s - prev_pos g) in *.
    destruct (quot_4_facts d) as (Habs & Hnonneg & Hnonpos).
    assert (Hnet : 4 * net_steps (intents (loop s g)) = prev_pos g' - prev_pos g).
    { unfold net_steps. rewrite Hr, Hl, Hpos.
      destruct (Z.ltb_spec 0 d); [destruct Hnonneg as [_ ->]|destruct Hnonpos as [_ ->]]; lia. }
    assert (Hsmall : encoder_small (prev_pos g')).
    { unfold encoder_small in *. rewrite Hpos.
      destruct (Z.le_ge_cases 0 d) as [P|P];
        [destruct (Hnonneg P) as [? _]|destruct (Hnonpos P) as [? _]]; lia. }
    destruct (IH g' Hsmall Hrest) as (I1 & I2 & I3).
    repeat split; try apply I2; try lia.
    destruct ss as [|s' ss'].
    + unfold final_globals. cbn [run_loop fst last_encoder].
      rewrite Hpos. fold d. replace (encoder s - (prev_pos g + 4 * Z.quot d 4))
        with (d - 4 * Z.quot d 4) by (unfold d; lia). exact Habs.
    + cbn [last_encoder] in I3 |- *. exact I3.
Qed.

(** While the dial only turns clockwise no left step is ever sent. *)
Lemma trace_clockwise (ss : list Sample) :
  forall g p,
    encoder_small (prev_pos g) ->
    Forall (fun s => encoder_small (encoder s)) ss ->
    prev_pos g <= p ->
    clockwise_from p ss ->
    count_kind MoveStepLeft (trace_intents ss g) = O.
Proof.
  induction ss as [|s ss IH]; intros g p Hp Hall Hle Hcw; [reflexivity|].
  inversion Hall as [|? ? Hs Hrest]; subst. destruct Hcw as [Hps Hcw].
  rewrite trace_intents_cons, count_kind_app.
  destruct (loop_encoder_progress s g Hs Hp) as (_ & Hl & Hpos).
  cbv zeta in Hl, Hpos.
  assert (Hone : Forall (fun s => encoder_small (encoder s)) [s])
    by (constructor; [exact Hs|constructor]).
  destruct (trace_encoder_invariant [s] g Hp Hone) as (_ & Hsmall & _).
  rewrite final_globals_cons in Hsmall. unfold final_globals in Hsmall.
  cbn [run_loop fst] in Hsmall.
  destruct (quot_4_facts (encoder s - prev_pos g)) as (_ & Hnonneg & _).
  rewrite (IH (state_of (loop s g)) (encoder s) Hsmall Hrest); [| |exact Hcw].
  - destruct (Z.ltb_spec 0 (encoder s - prev_pos g)) as [P|P]; [lia|].
    assert (E : encoder s - prev_pos g = 0) by lia.
    rewrite E in Hl. cbn in Hl. lia.
  - rewrite Hpos. lia.
Qed.

Lemma step_batch_all_steps (k : IntentKind) (lock : bool) (n : nat) :
  is_step (k, false) = true -> forallb is_step (step_batch k lock n) = true.
Proof.
  intros Hk. destruct n as [|n]; [reflexivity|].
  cbn [step_batch forallb]. change (is_step (k, lock)) with (is_step (k, false)).
  rewrite Hk. cbn [andb]. induction n as [|n IH]; [reflexivity|].
  cbn [repeat forallb]. now rewrite Hk.
Qed.

(** C4. For every encoder delta [d] exactly [|d| / 4] step intents are
    sent and [prev_pos] advances by exactly [steps * 4] in the direction
    of rotation, so the remainder of [d] by 4 stays pending; hence over
    any sequence of polls whose readings end a multiple [4 * k] of raw
    ticks away from the starting position, the right steps minus the
    left steps sent are exactly [k] and [prev_pos] has caught up with the
    encoder; when the dial only turned clockwise these are [k] right
    steps and no left step. *)
Theorem encoder_steps_no_drift :
  (forall s g,
      in_long (encoder s) -> in_long (prev_pos g) ->
      long_min < encoder s - prev_pos g <= long_max ->
      let d := encoder s - prev_pos g in
      let r := encoder_part s g in
      length (intents r) = Z.to_nat (Z.abs d / 4)
      /\ forallb is_step (intents r) = true
      /\ prev_pos (state_of r) = prev_pos g + Z.sgn d * (Z.abs d / 4 * 4)
      /\ encoder s - prev_pos (state_of r) = Z.rem d 4)
  /\ (forall ss g k,
         encoder_small (prev_pos g) ->
         Forall (fun s => encoder_small (encoder s)) ss ->
         last_encoder (prev_pos g) ss - prev_pos g = 4 * k ->
         net_steps (trace_intents ss g) = k
         /\ prev_pos (final_globals ss g) = last_encoder (prev_pos g) ss)
  /\ (forall ss g k,
         encoder_small (prev_pos g) ->
         Forall (fun s => encoder_small (encoder s)) ss ->
         last_encoder (prev_pos g) ss - prev_pos g = 4 * k ->
         clockwise_from (prev_pos g) ss ->
         count_kind MoveStepRight (trace_intents ss g) = Z.to_nat k
         /\ count_kind MoveStepLeft (trace_intents ss g) = O).
Proof.
  assert (Hnet : forall ss g k,
             encoder_small (prev_pos g) ->
             Forall (fun s => encoder_small (encoder s)) ss ->
             last_encoder (prev_pos g) ss - prev_pos g = 4 * k ->
             net_steps (trace_intents ss g) = k
             /\ prev_pos (final_globals ss g) = last_encoder (prev_pos g) ss).
  { intros ss g k Hp Hall Hk.
    destruct (trace_encoder_invariant ss g Hp Hall) as (H1 & _ & H3). lia. }
  split; [|split; [exact Hnet|]].
  - intros s g Hc Hp Hd. cbv zeta.
    destruct (encoder_part_exact s g Hd) as (Hi & _ & Hpos). cbv zeta in Hi.
    specialize (Hpos Hc Hp). rewrite Hi, Hpos.
    set (d := encoder s - prev_pos g).
    destruct (quot_4_facts d) as (_ & Hnonneg & Hnonpos).
    pose proof (Z.quot_rem' d 4) as Hrem.
    repeat split.
    + destruct (Z.ltb_spec 0 d); rewrite step_batch_length; [|reflexivity].
      now rewrite Z.abs_eq by lia.
    + destruct (0 <? d); apply step_batch_all_steps; reflexivity.
    + destruct (Z.lt_trichotomy d 0) as [N|[E|P]].
      * destruct Hnonpos as [_ Hq]; [lia|]. rewrite Hq, Z.sgn_neg by lia. lia.
      * rewrite E. reflexivity.
      * destruct Hnonneg as [_ Hq]; [lia|].
        rewrite Hq, Z.sgn_pos, Z.abs_eq by lia. lia.
    + unfold d in *. lia.
  - intros ss g k Hp Hall Hk Hcw.
    destruct (Hnet ss g k Hp Hall Hk) as [Hn _].
    pose proof (trace_clockwise ss g (prev_pos g) Hp Hall (Z.le_refl _) Hcw) as Hl.
    unfold net_steps in Hn. rewrite Hl in Hn |- *. split; [lia|reflexivity].
Qed.

Lemma encoder_steps_no_drift_witness :
  net_steps (trace_intents [poll_encoder 3; poll_encoder 5; poll_encoder 8]
                           initial_globals) = 2
  /\ prev_pos (final_globals [poll_encoder 3; poll_encoder 5; poll_encoder 8]
                             initial_globals) = 8.
Proof.
  apply (proj1 (proj2 encoder_steps_no_drift)
               [poll_encoder 3; poll_encoder 5; poll_encoder 8] initial_globals 2).
  - vm_compute. split; reflexivity.
  - repeat constructor.
  - reflexivity.
Defined.

(** ** Order of emission *)

(** C1, as stated: encoder steps come before touch intents.  One
    iteration that sees a touch begin in the Escape zone and four
    encoder ticks sends Escape first and the step second. *)
Lemma encoder_first_order_fails :
  intents (loop (poll_touch touch_begin 10 4) initial_globals)
  = [(Escape, false); (MoveStepRight, false)]
  /\ intents (loop_encoder_first (poll_touch touch_begin 10 4) initial_globals)
     = [(MoveStepRight, false); (Escape, false)]
  /\ intents (loop (poll_touch touch_begin 10 4) initial_globals)
     <> intents (loop_encoder_first (poll_touch touch_begin 10 4) initial_globals).
Proof. repeat split. intros H. discriminate H. Qed.

(** C1, amended.  The actions of one iteration are those of the touch
    code, then those of the encoder code, then those of the button
    code, each run on the globals the previous one left, with nothing
    dropped or reordered; the touch code sends only Escape, the encoder
    code only steps, the button code only Delete and Enter. *)
Theorem loop_emits_touch_encoder_button (s : Sample) (g : Globals) :
  let rt := touch_part s g in
  let re := encoder_part s (state_of rt) in
  let rb := button_part s (state_of re) in
  actions_of (loop s g) = actions_of rt ++ actions_of re ++ actions_of rb
  /\ intents (loop s g) = intents rt ++ intents re ++ intents rb
  /\ state_of (loop s g) = state_of rb
  /\ forallb (is_kind Escape) (intents rt) = true
  /\ forallb is_step (intents re) = true
  /\ forallb (fun i => is_kind Delete i || is_kind Enter i) (intents rb) = true.
Proof.
  cbv zeta.
  split; [now rewrite loop_run|].
  split; [apply (proj1 (loop_intents s g))|].
  split; [now rewrite loop_run|].
  repeat split.
  - destruct (touch_part_intents s g) as [-> _].
    destruct (escape_fires s); reflexivity.
  - destruct (encoder_part_intents s (state_of (touch_part s g))) as [H _].
    cbv zeta in H. rewrite H.
    destruct (_ =? 0); [reflexivity|].
    destruct (0 <? _); apply step_batch_all_steps; reflexivity.
  - match goal with
    | |- context [intents (button_part s ?g2)] =>
        destruct (button_part_intents s g2) as [-> _];
        destruct (long_press_starts s g2), (repeat_fires s g2), (enter_fires s g2)
    end; reflexivity.
Qed.

(** ** The one-shot shift lock *)

Lemma step_batch_flags (k : IntentKind) (lock : bool) (n : nat) :
  map snd (step_batch k lock n) = one_shot lock n.
Proof.
  destruct n as [|n]; [reflexivity|]. cbn [step_batch one_shot map snd].
  f_equal. induction n as [|n IH]; [reflexivity|]. cbn [repeat map snd]. now rewrite IH.
Qed.

Lemma step_batch_sensitive (k : IntentKind) (lock : bool) (n : nat) :
  is_step (k, false) = true ->
  filter modifier_sensitive (step_batch k lock n) = step_batch k lock n.
Proof.
  intros Hk.
  assert (Hs : forall b, modifier_sensitive (k, b) = true)
    by (intros b; destruct k; try discriminate Hk; reflexivity).
  destruct n as [|n]; [reflexivity|]. cbn [step_batch filter]. rewrite Hs. f_equal.
  induction n as [|n IH]; [reflexivity|]. cbn [repeat filter]. now rewrite Hs, IH.
Qed.

Lemma one_shot_snoc (lock : bool) (n : nat) :
  one_shot lock (S n) ++ [false] = one_shot lock (S (S n)).
Proof.
  cbn [one_shot app]. f_equal.
  induction n as [|n IH]; [reflexivity|]. cbn [repeat app]. now rewrite IH.
Qed.

Lemma one_shot_then (lock : bool) (n : nat) :
  one_shot lock n ++ [lock && (n =? 0)%nat] = one_shot lock (n + 1).
Proof.
  destruct n as [|n].
  - cbn. now rewrite andb_true_r.
  - cbn [Nat.eqb]. rewrite andb_false_r, Nat.add_1_r. apply one_shot_snoc.
Qed.

(** Whatever the delta, the encoder code sends one batch of steps of a
    single kind, and it clears the lock exactly when the batch is not
    empty. *)
Lemma encoder_part_batch (s : Sample) (g : Globals) :
  exists k n,
    is_step (k, false) = true
    /\ intents (encoder_part s g) = step_batch k (shift_lock g) n
    /\ shift_lock (state_of (encoder_part s g)) = shift_lock g && (n =? 0)%nat.
Proof.
  destruct (encoder_part_intents s g) as [Hi _]. cbv zeta in Hi. rewrite Hi.
  rewrite encoder_part_run. cbv zeta.
  destruct (encoder_delta s g =? 0).
  - exists MoveStepRight, O. cbn. now rewrite andb_true_r.
  - destruct (0 <? encoder_delta s g);
      [exists MoveStepRight, (Z.to_nat (Z.quot (encoder_delta s g) 4))
      |exists MoveStepLeft, (Z.to_nat (Z.quot (wrap_long (- encoder_delta s g)) 4))];
      (split; [reflexivity|]); (split; [reflexivity|]);
      destruct (Z.to_nat _); cbn;
      [now rewrite andb_true_r | now rewrite andb_false_r
      |now rewrite andb_true_r | now rewrite andb_false_r].
Qed.

(** C3. While the lock is set, the next modifier-sensitive intent (a
    step or Enter) is sent shifted and the lock is cleared with that very
    emission: [sendAsciiWithOptionalShift] sends its character with the
    lock as shift flag and always leaves the lock clear; in an encoder
    batch only the first step can be shifted; and over a whole iteration
    the modifier-sensitive intents carry the lock on the first of them
    and never on a later one, Escape and Delete are never shifted, and the
    lock survives the iteration only if no modifier-sensitive intent was
    sent. *)
Theorem shift_lock_one_shot :
  (forall g,
      intents (sendAsciiWithOptionalShift "d" g) = [(MoveStepRight, shift_lock g)]
      /\ intents (sendAsciiWithOptionalShift "a" g) = [(MoveStepLeft, shift_lock g)]
      /\ intents (sendAsciiWithOptionalShift "010" g) = [(Enter, shift_lock g)])
  /\ (forall c g, shift_lock (state_of (sendAsciiWithOptionalShift c g)) = false)
  /\ (forall s g,
         let its := intents (encoder_part s g) in
         map snd its = one_shot (shift_lock g) (length its)
         /\ shift_lock (state_of (encoder_part s g))
            = shift_lock g && (length its =? 0)%nat)
  /\ (forall s g,
         let lock := shift_lock (state_of (touch_part s g)) in
         let its := filter modifier_sensitive (intents (loop s g)) in
         map snd its = one_shot lock (length its)
         /\ shift_lock (state_of (loop s g)) = lock && (length its =? 0)%nat
         /\ forallb (fun i => modifier_sensitive i || negb (snd i))
                    (intents (loop s g)) = true).
Proof.
  split; [|split; [|split]].
  - intros g. unfold intents. rewrite !sendAscii_run. cbn [actions_of snd].
    destruct (shift_lock g); repeat split.
  - intros c g. now rewrite sendAscii_run.
  - intros s g. cbv zeta.
    destruct (encoder_part_batch s g) as (k & n & Hk & -> & ->).
    rewrite step_batch_length. split; [apply step_batch_flags|reflexivity].
  - intros s g. cbv zeta.
    destruct (loop_intents s g) as [-> _]. rewrite loop_state.
    destruct (touch_part_intents s g) as [-> _].
    set (g1 := state_of (touch_part s g)).
    destruct (encoder_part_batch s g1) as (k & n & Hk & -> & Hlock).
    set (g2 := state_of (encoder_part s g1)) in *.
    destruct (button_part_intents s g2) as [-> _].
    rewrite button_part_run. cbn [state_of fst snd shift_lock]. rewrite Hlock.
    match goal with
    | |- context [?t ++ step_batch k (shift_lock g1) n ++ ?p] =>
        set (touched := t); set (pressed := p)
    end.
    assert (HT : filter modifier_sensitive touched = []
                 /\ forallb (fun i => modifier_sensitive i || negb (snd i)) touched
                    = true)
      by (unfold touched; destruct (escape_fires s); split; reflexivity).
    assert (HB : filter modifier_sensitive pressed
                 = (if enter_fires s g2
                    then [(Enter, shift_lock g1 && (n =? 0)%nat)] else [])
                 /\ forallb (fun i => modifier_sensitive i || negb (snd i)) pressed
                    = true)
      by (unfold pressed;
          destruct (long_press_starts s g2), (repeat_fires s g2), (enter_fires s g2);
          split; reflexivity).
    assert (HE : forallb (fun i => modifier_sensitive i || negb (snd i))
                         (step_batch k (shift_lock g1) n) = true).
    { apply forallb_forall. intros i Hi.
      rewrite <- (step_batch_sensitive k (shift_lock g1) n Hk) in Hi.
      apply filter_In in Hi. destruct Hi as [_ ->]. reflexivity. }
    destruct HT as [HT1 HT2], HB as [HB1 HB2].
    rewrite !filter_app, !forallb_app, HT1, HT2, HB1, HB2, HE,
      step_batch_sensitive by exact Hk.
    cbn [app]. rewrite map_app, length_app, step_batch_flags, step_batch_length.
    destruct (enter_fires s g2); cbn [map snd length negb andb].
    + rewrite andb_false_r, Nat.add_1_r. cbn [Nat.eqb]. rewrite andb_false_r.
      rewrite <- Nat.add_1_r. repeat split. apply one_shot_then.
    + rewrite app_nil_r, Nat.add_0_r, andb_true_r. repeat split.
Qed.

(** ** Touch *)

Lemma touch_state_eqb_eq (a b : touch_state_t) :
  touch_state_eqb a b = true <-> a = b.
Proof. destruct a, b; cbn; split; intros H; try reflexivity; discriminate H. Qed.

Lemma not_touch_begin (s : Sample) :
  t_state s <> touch_begin -> escape_fires s = false /\ shift_toggles s = false.
Proof.
  intros H. unfold escape_fires, shift_toggles.
  destruct (touch_state_eqb (t_state s) touch_begin) eqn:E; [|split; reflexivity].
  apply touch_state_eqb_eq in E. contradiction.
Qed.

(** C7. On a touch-begin sample, a touch in the Escape zone sends
    exactly one Escape, unshifted and without touching the lock: the
    actions are the redraw of a zone change, if any, and then the press
    and release of the Escape key.  A touch in the Shift zone sends no
    key at all and flips the lock, with visual feedback only: the actions
    are the redraw of a zone change, if any, and then one redraw with
    the Shift key pressed and the new lock.  Any sample that is not a
    touch begin sends nothing, and a touch held in the zone already
    recorded does nothing at all, so nothing more is sent until a new
    touch begins. *)
Theorem touch_begin_actions (s : Sample) (g : Globals) :
  (t_state s = touch_begin -> touch_zone s = 0 ->
     intents (touch_part s g) = [(Escape, false)]
     /\ shift_lock (state_of (touch_part s g)) = shift_lock g
     /\ actions_of (touch_part s g)
        = (if 0 =? last_touch_zone g then [] else [DrawKeys 0 (shift_lock g)])
          ++ [KeyPress KEY_ESC; KeyRelease KEY_ESC])
  /\ (t_state s = touch_begin -> touch_zone s = 1 ->
        intents (touch_part s g) = []
        /\ forallb is_draw (actions_of (touch_part s g)) = true
        /\ shift_lock (state_of (touch_part s g)) = negb (shift_lock g)
        /\ actions_of (touch_part s g)
           = (if 1 =? last_touch_zone g then [] else [DrawKeys 1 (shift_lock g)])
             ++ [DrawKeys 1 (negb (shift_lock g))])
  /\ (t_state s <> touch_begin ->
        intents (touch_part s g) = []
        /\ shift_lock (state_of (touch_part s g)) = shift_lock g)
  /\ (t_state s <> touch_begin -> t_state s <> touch_end ->
        touch_zone s = last_touch_zone g ->
        touch_part s g = (tt, g, [])).
Proof.
  unfold intents. rewrite touch_part_run. cbn [actions_of state_of fst snd shift_lock].
  split; [|split; [|split]].
  - intros Hb Hz.
    assert (escape_fires s = true) as ->
      by (unfold escape_fires; rewrite Hb, Hz; reflexivity).
    assert (shift_toggles s = false) as ->
      by (unfold shift_toggles; rewrite Hb, Hz; reflexivity).
    rewrite Hb, Hz. cbn [touch_state_eqb].
    destruct (0 =? last_touch_zone g), (shift_lock g); repeat split; reflexivity.
  - intros Hb Hz.
    assert (escape_fires s = false) as ->
      by (unfold escape_fires; rewrite Hb, Hz; reflexivity).
    assert (shift_toggles s = true) as ->
      by (unfold shift_toggles; rewrite Hb, Hz; reflexivity).
    rewrite Hb, Hz. cbn [touch_state_eqb].
    destruct (1 =? last_touch_zone g), (shift_lock g);
      repeat split; reflexivity.
  - intros Hn. destruct (not_touch_begin s Hn) as [-> ->].
    destruct (touch_zone s =? last_touch_zone g),
      (touch_state_eqb (t_state s) touch_end), (shift_lock g); split; reflexivity.
  - intros Hn He Hz. destruct (not_touch_begin s Hn) as [-> ->].
    rewrite Hz, Z.eqb_refl.
    destruct (touch_state_eqb (t_state s) touch_end) eqn:E;
      [apply touch_state_eqb_eq in E; contradiction|].
    destruct g as [p [|] z ps ld d]; reflexivity.
Qed.

Lemma touch_begin_actions_witness :
  (intents (touch_part (poll_touch touch_begin 10 0) initial_globals)
   = [(Escape, false)]
   /\ shift_lock (state_of (touch_part (poll_touch touch_begin 10 0) initial_globals))
      = false
   /\ actions_of (touch_part (poll_touch touch_begin 10 0) initial_globals)
      = [DrawKeys 0 false; KeyPress KEY_ESC; KeyRelease KEY_ESC])
  /\ (intents (touch_part (poll_touch touch_begin 200 0) initial_globals) = []
      /\ forallb is_draw
           (actions_of (touch_part (poll_touch touch_begin 200 0) initial_globals))
         = true
      /\ shift_lock
           (state_of (touch_part (poll_touch touch_begin 200 0) initial_globals))
         = true
      /\ actions_of (touch_part (poll_touch touch_begin 200 0) initial_globals)
         = [DrawKeys 1 false; DrawKeys 1 true])
  /\ touch_part (poll_touch hold 10 0)
                (state_of (touch_part (poll_touch touch_begin 10 0) initial_globals))
     = (tt, state_of (touch_part (poll_touch touch_begin 10 0) initial_globals), []).
Proof.
  split; [|split].
  - apply (proj1 (touch_begin_actions (poll_touch touch_begin 10 0) initial_globals));
      reflexivity.
  - apply (proj1 (proj2 (touch_begin_actions (poll_touch touch_begin 200 0)
                                               initial_globals)));
      reflexivity.
  - apply (proj2 (proj2 (proj2
             (touch_begin_actions
                (poll_touch hold 10 0)
                (state_of (touch_part (poll_touch touch_begin 10 0) initial_globals))))));
      [discriminate|discriminate|reflexivity].
Defined.

(** C10. A sample that is not a touch begin never sends Escape and
    never flips the lock, whatever zone its coordinate falls in: the
    touch code only records the zone and redraws, and when the touch goes
    on (no touch end) into a different zone the one thing it does is
    redraw with that zone pressed.  The whole iteration sends no Escape
    either. *)
Theorem mid_touch_slide (s : Sample) (g : Globals) :
  t_state s <> touch_begin ->
  intents (touch_part s g) = []
  /\ forallb is_draw (actions_of (touch_part s g)) = true
  /\ shift_lock (state_of (touch_part s g)) = shift_lock g
  /\ last_touch_zone (state_of (touch_part s g)) = touch_zone s
  /\ count_kind Escape (intents (loop s g)) = O
  /\ (t_state s <> touch_end -> touch_zone s <> last_touch_zone g ->
      actions_of (touch_part s g) = [DrawKeys (touch_zone s) (shift_lock g)]).
Proof.
  intros Hn. destruct (not_touch_begin s Hn) as [Hesc Htog].
  split; [|split; [|split; [|split; [|split]]]].
  - destruct (touch_part_intents s g) as [-> _]. now rewrite Hesc.
  - rewrite touch_part_run, Hesc, Htog. cbn [actions_of snd].
    destruct (touch_zone s =? last_touch_zone g),
      (touch_state_eqb (t_state s) touch_end); reflexivity.
  - rewrite touch_part_run, Htog. cbn. now destruct (shift_lock g).
  - now rewrite touch_part_run.
  - destruct (loop_intents s g) as [-> _]. rewrite !count_kind_app.
    destruct (touch_part_intents s g) as [-> _]. rewrite Hesc.
    match goal with
    | |- context [intents (button_part s ?g2)] =>
        destruct (button_part_intents s g2) as [-> _];
        destruct (long_press_starts s g2), (repeat_fires s g2), (enter_fires s g2)
    end;
      destruct (encoder_part_batch s (state_of (touch_part s g)))
        as (k & n & Hk & -> & _);
      rewrite count_kind_step_batch;
      destruct k; try discriminate Hk; reflexivity.
  - intros He Hz. rewrite touch_part_run, Hesc, Htog. cbn [actions_of snd].
    destruct (Z.eqb_spec (touch_zone s) (last_touch_zone g)); [contradiction|].
    destruct (touch_state_eqb (t_state s) touch_end) eqn:E;
      [apply touch_state_eqb_eq in E; contradiction|reflexivity].
Qed.

Lemma mid_touch_slide_witness :
  t_state (poll_touch hold 200 0) <> touch_begin
  /\ intents (touch_part (poll_touch hold 200 0)
                         (state_of (loop (poll_touch touch_begin 10 0) initial_globals)))
     = []
  /\ shift_lock (state_of (touch_part (poll_touch hold 200 0)
                   (state_of (loop (poll_touch touch_begin 10 0) initial_globals))))
     = false.
Proof.
  assert (H : t_state (poll_touch hold 200 0) <> touch_begin) by discriminate.
  split; [exact H|].
  pose proof (mid_touch_slide (poll_touch hold 200 0)
                (state_of (loop (poll_touch touch_begin 10 0) initial_globals)) H)
    as (H1 & _ & H3 & _).
  split; [exact H1|exact H3].
Defined.

(** ** Button *)

(** Expose the tests of lines 185-213 behind the branch predicates. *)
Ltac button_tests :=
  unfold enter_fires, release_handled, repeat_fires, last_delete_seen,
    long_press_starts, repeating, still_repeating.

(** C9. A release seen while long-press mode is off and no press start
    is recorded ([press_start_ms] is 0) takes the hold time to be 0: the
    iteration fails nowhere, treats the release as a short click and
    sends Enter. *)
Theorem release_without_press_start (s : Sample) (g : Globals) :
  delete_mode_active g = false ->
  press_start_ms g = 0 ->
  wasPressed s = false ->
  pressedFor_3000 s = false ->
  wasReleased s = true ->
  held_ms (press_start_seen s g) (u32 (ms_release s)) = 0
  /\ intents (button_part s g) = [(Enter, shift_lock g)]
  /\ press_start_ms (state_of (button_part s g)) = 0
  /\ delete_mode_active (state_of (button_part s g)) = false.
Proof.
  intros Hd Hps Hwp Hpf Hwr.
  assert (Hheld : held_ms (press_start_seen s g) (u32 (ms_release s)) = 0)
    by (unfold press_start_seen; rewrite Hwp, Hps; reflexivity).
  assert (Hrep : repeating s g = false)
    by (unfold repeating, still_repeating; rewrite Hd, Hpf; reflexivity).
  assert (Hent : enter_fires s g = true)
    by (unfold enter_fires, release_handled; rewrite Hrep, Hwr, Hheld; reflexivity).
  split; [exact Hheld|].
  destruct (button_part_intents s g) as [-> _].
  rewrite button_part_run. cbn [state_of fst snd press_start_ms delete_mode_active].
  unfold long_press_starts, repeat_fires, release_handled.
  rewrite Hrep, Hent, Hpf, Hwr, andb_false_r. repeat split.
Qed.

Lemma release_without_press_start_witness :
  held_ms (press_start_seen (poll_button false true false 77 0) initial_globals)
          (u32 (ms_release (poll_button false true false 77 0))) = 0
  /\ intents (button_part (poll_button false true false 77 0) initial_globals)
     = [(Enter, false)].
Proof.
  pose proof (release_without_press_start
                (poll_button false true false 77 0) initial_globals
                eq_refl eq_refl eq_refl eq_refl eq_refl) as (H1 & H2 & _).
  split; [exact H1|exact H2].
Defined.

(** What the button code does in each situation of a press. *)

Lemma button_idle (s : Sample) (g : Globals) :
  delete_mode_active g = false ->
  wasPressed s = false -> wasReleased s = false -> pressedFor_3000 s = false ->
  button_part s g = (tt, g, []).
Proof.
  intros Hd Hwp Hwr Hpf. rewrite button_part_run.
  button_tests; unfold press_start_seen.
  rewrite Hd, Hwp, Hwr, Hpf. cbn [andb orb negb app].
  rewrite andb_true_r. destruct g; cbn in *; subst; reflexivity.
Qed.

Lemma button_short_click (s : Sample) (g : Globals) :
  delete_mode_active g = false ->
  pressedFor_3000 s = false -> wasReleased s = true ->
  held_ms (press_start_seen s g) (u32 (ms_release s)) < 3000 ->
  intents (button_part s g) = [(Enter, shift_lock g)].
Proof.
  intros Hd Hpf Hwr Hheld. destruct (button_part_intents s g) as [-> _].
  unfold enter_fires, release_handled, repeat_fires, long_press_starts,
    repeating, still_repeating.
  rewrite Hd, Hpf, Hwr. cbn [andb orb negb app].
  now destruct (Z.ltb_spec (held_ms (press_start_seen s g) (u32 (ms_release s))) 3000);
    [|lia].
Qed.

Lemma button_long_press_start (s : Sample) (g : Globals) :
  delete_mode_active g = false ->
  pressedFor_3000 s = true -> wasReleased s = false ->
  u32 (u32 (ms_repeat s) - u32 (ms_long s)) < 500 ->
  intents (button_part s g) = [(Delete, false)]
  /\ delete_mode_active (state_of (button_part s g)) = true
  /\ last_delete_ms (state_of (button_part s g)) = u32 (ms_long s).
Proof.
  intros Hd Hpf Hwr Hsoon. destruct (button_part_intents s g) as [-> _].
  rewrite button_part_run. cbn [state_of fst snd delete_mode_active last_delete_ms].
  button_tests.
  rewrite Hd, Hpf, Hwr. cbn [andb orb negb app].
  destruct (Z.leb_spec 500 (u32 (u32 (ms_repeat s) - u32 (ms_long s)))); [lia|].
  repeat split.
Qed.

Lemma button_repeat (s : Sample) (g : Globals) :
  delete_mode_active g = true -> wasReleased s = false ->
  let due := 500 <=? u32 (u32 (ms_repeat s) - last_delete_ms g) in
  intents (button_part s g) = (if due then [(Delete, false)] else [])
  /\ delete_mode_active (state_of (button_part s g)) = true
  /\ last_delete_ms (state_of (button_part s g))
     = (if due then u32 (ms_repeat s) else last_delete_ms g).
Proof.
  intros Hd Hwr. cbv zeta. destruct (button_part_intents s g) as [-> _].
  rewrite button_part_run. cbn [state_of fst snd delete_mode_active last_delete_ms].
  button_tests.
  rewrite Hd, Hwr. cbn [andb orb negb app].
  destruct (500 <=? _); repeat split.
Qed.

Lemma button_release_in_repeat (s : Sample) (g : Globals) :
  delete_mode_active g = true -> wasReleased s = true -> pressedFor_3000 s = false ->
  intents (button_part s g)
  = (if held_ms (press_start_seen s g) (u32 (ms_release s)) <? 3000
     then [(Enter, shift_lock g)] else [])
  /\ delete_mode_active (state_of (button_part s g)) = false
  /\ last_delete_ms (state_of (button_part s g)) = 0.
Proof.
  intros Hd Hwr Hpf. destruct (button_part_intents s g) as [-> _].
  rewrite button_part_run. cbn [state_of fst snd delete_mode_active last_delete_ms].
  button_tests.
  rewrite Hd, Hwr, Hpf. cbn [andb orb negb app].
  destruct (_ <? 3000); repeat split.
Qed.

(** A click of 2999 ms sends one Enter and no Delete. *)
Example click_2999_ms :
  trace_intents [poll_button true false false 1000 0;
                 poll_button false false false 2500 0;
                 poll_button false true false 3999 0] initial_globals
  = [(Enter, false)].
Proof. reflexivity. Qed.

(** A press polled every 10 ms that reaches 3000 ms at clock 4000 and is
    held 1200 ms more sends Delete at once, again 500 ms and 1000 ms
    later, and nothing when it is let go. *)
Example long_press_1200_ms :
  trace_intents (poll_button true false false 1000 0
                 :: held_polls 121 4000 10
                 ++ [poll_button false true false 5210 0]) initial_globals
  = [(Delete, false); (Delete, false); (Delete, false)].
Proof. vm_compute. reflexivity. Qed.

(** Toggling the lock twice leaves the next steps plain. *)
Example toggle_twice_then_steps :
  trace_intents [poll_touch touch_begin 200 0; poll_touch touch_end 200 0;
                 poll_touch touch_begin 200 0; poll_encoder (-12)] initial_globals
  = [(MoveStepLeft, false); (MoveStepLeft, false); (MoveStepLeft, false)].
Proof. reflexivity. Qed.

(** A toggle and twelve ticks seen by the same iteration: the first of
    the three steps is shifted. *)
Example toggle_and_turn :
  intents (loop (poll_touch touch_begin 200 12) initial_globals)
  = [(MoveStepRight, true); (MoveStepRight, false); (MoveStepRight, false)].
Proof. reflexivity. Qed.

(** C5. The claim: a press that reaches 3000 ms sends Delete and never
    Enter.  On the long press [long_press_race] the code sends the ten
    steps, then Delete when [pressedFor(3000)] holds, and then Enter on
    release, because line 186 has already cleared [delete_mode_active]
    when line 211 tests it and the hold measured from [press_start_ms]
    is only 2965 ms. *)
Theorem long_press_release_sends_enter :
  trace_intents long_press_race (state_of (setup 0 initial_globals))
  = repeat (MoveStepRight, false) 10 ++ [(Delete, false); (Enter, false)]
  /\ count_kind Delete
       (trace_intents long_press_race (state_of (setup 0 initial_globals))) = 1%nat
  /\ count_kind Enter
       (trace_intents long_press_race (state_of (setup 0 initial_globals))) = 1%nat.
Proof. repeat split. Qed.

(** C6. The claim: letting go in repeat mode sends nothing more.  After
    the first two iterations of [long_press_race] the code is in repeat
    mode; the iteration that sees the release leaves repeat mode and
    sends Enter. *)
Theorem repeat_mode_release_sends_enter :
  let g := final_globals [race_press; race_hold] (state_of (setup 0 initial_globals)) in
  delete_mode_active g = true
  /\ intents (loop race_release g) = [(Enter, false)]
  /\ delete_mode_active (state_of (loop race_release g)) = false
  /\ held_ms (press_start_ms g) (u32 (ms_release race_release)) = 2965.
Proof. repeat split. Qed.

(** ** The key of a counter-clockwise step *)

Lemma presses_app (k : hid_key) (a b : list action) :
  presses k (a ++ b) = presses k a || presses k b.
Proof. apply existsb_app. Qed.

Lemma batch_tx_presses (k k' : hid_key) (c : ascii) (lock : bool) (n : nat) :
  hid_key_eqb k k' = false -> hid_key_eqb k KEY_LEFT_SHIFT = false ->
  presses k (batch_tx k' c lock n) = false.
Proof.
  intros Hk Hs.
  assert (Harrows : forall m, presses k (concat (repeat (arrow_tx k') m)) = false).
  { induction m as [|m IH]; [reflexivity|].
    cbn [repeat concat]. rewrite presses_app, IH.
    unfold presses. cbn [arrow_tx existsb]. now rewrite Hk. }
  destruct n as [|n]; [reflexivity|].
  unfold batch_tx. rewrite presses_app, Harrows.
  destruct lock; unfold presses; cbn [ascii_tx arrow_tx existsb];
    now rewrite ?Hk, ?Hs.
Qed.

Lemma touch_never_presses_left_arrow (s : Sample) (g : Globals) :
  presses KEY_LEFT_ARROW (actions_of (touch_part s g)) = false.
Proof.
  rewrite touch_part_run. cbn [actions_of snd].
  destruct (touch_zone s =? last_touch_zone g), (escape_fires s),
    (shift_toggles s), (touch_state_eqb (t_state s) touch_end); reflexivity.
Qed.

Lemma encoder_never_presses_left_arrow (s : Sample) (g : Globals) :
  presses KEY_LEFT_ARROW (actions_of (encoder_part s g)) = false.
Proof.
  rewrite encoder_part_run. cbv zeta.
  destruct (encoder_delta s g =? 0); [reflexivity|].
  destruct (0 <? encoder_delta s g); cbn [actions_of snd];
    apply batch_tx_presses; reflexivity.
Qed.

Lemma button_never_presses_left_arrow (s : Sample) (g : Globals) :
  presses KEY_LEFT_ARROW (actions_of (button_part s g)) = false.
Proof.
  rewrite button_part_run. cbn [actions_of snd].
  destruct (long_press_starts s g), (repeat_fires s g), (enter_fires s g),
    (shift_lock g); reflexivity.
Qed.

Lemma loop_never_presses_left_arrow (s : Sample) (g : Globals) :
  presses KEY_LEFT_ARROW (actions_of (loop s g)) = false.
Proof.
  rewrite loop_run. cbn [actions_of snd]. rewrite !presses_app.
  pose proof (touch_never_presses_left_arrow s g) as Ht.
  pose proof (encoder_never_presses_left_arrow s (state_of (touch_part s g))) as He.
  pose proof (button_never_presses_left_arrow s
                (state_of (encoder_part s (state_of (touch_part s g))))) as Hb.
  now rewrite Ht, He, Hb.
Qed.

(** C2.  The claim: a negative delta sends left steps.  One
    counter-clockwise step with the lock clear presses and releases the
    cursor-down key, where a clockwise step presses and releases the
    cursor-right key; no run of iterations ever presses the cursor-left
    key.  The number of steps and their order are as the claim says
    ([encoder_part_keys]). *)
Theorem counter_clockwise_step_presses_cursor_down :
  actions_of (encoder_part (poll_encoder (-4)) initial_globals)
  = [KeyPress KEY_DOWN_ARROW; KeyRelease KEY_DOWN_ARROW]
  /\ actions_of (encoder_part (poll_encoder 4) initial_globals)
     = [KeyPress KEY_RIGHT_ARROW; KeyRelease KEY_RIGHT_ARROW]
  /\ (forall ss g, presses KEY_LEFT_ARROW (snd (run_loop ss g)) = false).
Proof.
  split; [reflexivity|]. split; [reflexivity|].
  induction ss as [|s ss IH]; intros g; [reflexivity|].
  rewrite run_loop_cons. cbn [snd].
  now rewrite presses_app, loop_never_presses_left_arrow, IH.
Qed.

(** * Further properties *)

(** ** Colours *)

Lemma holds_from_spec (p : Z -> bool) (n : nat) :
  forall z, holds_from n z p = true ->
  forall x, z <= x < z + Z.of_nat n -> p x = true.
Proof.
  induction n as [|n IH]; intros z H x Hx; [lia|].
  cbn [holds_from] in H. apply andb_true_iff in H. destruct H as [Hz Hrest].
  destruct (Z.eq_dec x z) as [->|Hne]; [exact Hz|].
  apply (IH (z + 1) Hrest). lia.
Qed.

Lemma check_below (p : Z -> bool) (n : nat) :
  holds_from n 0 p = true -> forall z, 0 <= z < Z.of_nat n -> p z = true.
Proof. intros H z Hz. apply (holds_from_spec p n 0 H). lia. Qed.

Lemma factor_0_7_nearest :
  float_div (float_of_int 7) (float_of_int 10) = factor_0_7
  /\ valid_binary 24 128 factor_0_7 = true.
Proof. split; vm_compute; reflexivity. Qed.

(** Multiplying a channel by [0.7f] in single precision and discarding
    the fraction gives the same as the integer [7 * channel / 10]. *)
Lemma scale_0_7 (channel : Z) :
  0 <= channel < 256 -> scale channel factor_0_7 = 7 * channel / 10.
Proof.
  intros H. apply Z.eqb_eq.
  apply (check_below (fun r => scale r factor_0_7 =? 7 * r / 10) 256);
    [vm_compute; reflexivity|exact H].
Qed.

Lemma uint8_range (z : Z) : 0 <= uint8 z < 256.
Proof. unfold uint8. apply Z.mod_pos_bound. lia. Qed.

(** With the factor the sketch passes, [darken] is integer arithmetic on
    the three fields, whatever the colour. *)
Lemma darken_0_7 (c : Z) :
  darken c factor_0_7
  = uint16 (Z.lor (Z.lor (Z.shiftl (7 * red c / 10) 11)
                         (Z.shiftl (7 * green c / 10) 5))
                  (7 * blue c / 10)).
Proof.
  unfold darken.
  rewrite !scale_0_7 by (unfold red, green, blue; apply uint8_range).
  reflexivity.
Qed.

(** The fields of a colour as quotients and remainders. *)
Lemma fields_arith (c : Z) :
  red c = (c / 2 ^ 11) mod 2 ^ 5
  /\ green c = (c / 2 ^ 5) mod 2 ^ 6
  /\ blue c = c mod 2 ^ 5.
Proof.
  unfold red, green, blue, uint8.
  change 0x1F with (Z.ones 5). change 0x3F with (Z.ones 6).
  rewrite !Z.land_ones, !Z.shiftr_div_pow2 by lia.
  repeat split; apply Z.mod_small.
  - pose proof (Z.mod_pos_bound (c / 2 ^ 11) (2 ^ 5)). lia.
  - pose proof (Z.mod_pos_bound (c / 2 ^ 5) (2 ^ 6)). lia.
  - pose proof (Z.mod_pos_bound c (2 ^ 5)). lia.
Qed.

(** Scaled fields packed into a colour are read back unchanged. *)
Lemma pack_fields (r g b : Z) :
  0 <= r < 22 -> 0 <= g < 45 -> 0 <= b < 22 ->
  let c := uint16 (Z.lor (Z.lor (Z.shiftl r 11) (Z.shiftl g 5)) b) in
  red c = r /\ green c = g /\ blue c = b.
Proof.
  intros Hr Hg Hb. cbv zeta.
  assert (H : holds_from 22 0 (fun r =>
                holds_from 45 0 (fun g =>
                  holds_from 22 0 (fun b => test_pack r g b))) = true)
    by (vm_compute; reflexivity).
  pose proof (holds_from_spec _ _ _ H r ltac:(lia)) as H1. cbv beta in H1.
  pose proof (holds_from_spec _ _ _ H1 g ltac:(lia)) as H2. cbv beta in H2.
  pose proof (holds_from_spec _ _ _ H2 b ltac:(lia)) as H3. cbv beta in H3.
  unfold test_pack in H3. cbv zeta in H3.
  apply andb_true_iff in H3. destruct H3 as [H3 Hb'].
  apply andb_true_iff in H3. destruct H3 as [Hr' Hg'].
  apply Z.eqb_eq in Hr', Hg', Hb'. auto.
Qed.

Lemma darken_0_7_fields (c : Z) :
  red (darken c factor_0_7) = 7 * red c / 10
  /\ green (darken c factor_0_7) = 7 * green c / 10
  /\ blue (darken c factor_0_7) = 7 * blue c / 10.
Proof.
  rewrite darken_0_7. destruct (fields_arith c) as (Hr & Hg & Hb).
  pose proof (Z.mod_pos_bound (c / 2 ^ 11) (2 ^ 5)).
  pose proof (Z.mod_pos_bound (c / 2 ^ 5) (2 ^ 6)).
  pose proof (Z.mod_pos_bound c (2 ^ 5)).
  apply pack_fields; rewrite ?Hr, ?Hg, ?Hb;
    Z.to_euclidean_division_equations; lia.
Qed.

(** X1. For every RGB565 colour, [darken] with the factor [0.7f] that
    [draw_keys] passes scales each of the three fields to
    [7 * field / 10] (the single-precision product never lands on the
    wrong side of an integer), so no field grows or spills into its
    neighbour, the result is again a 16-bit colour, and it differs from
    the colour given unless that is black. *)
Theorem darken_scales_each_field (c : Z) :
  0 <= c < 2 ^ 16 ->
  red (darken c factor_0_7) = 7 * red c / 10
  /\ green (darken c factor_0_7) = 7 * green c / 10
  /\ blue (darken c factor_0_7) = 7 * blue c / 10
  /\ red (darken c factor_0_7) <= red c
  /\ green (darken c factor_0_7) <= green c
  /\ blue (darken c factor_0_7) <= blue c
  /\ 0 <= darken c factor_0_7 < 2 ^ 16
  /\ (c <> 0 -> darken c factor_0_7 <> c).
Proof.
  intros H. destruct (darken_0_7_fields c) as (Hr & Hg & Hb).
  destruct (fields_arith c) as (Ar & Ag & Ab).
  pose proof (Z.mod_pos_bound (c / 2 ^ 11) (2 ^ 5)) as Br.
  pose proof (Z.mod_pos_bound (c / 2 ^ 5) (2 ^ 6)) as Bg.
  pose proof (Z.mod_pos_bound c (2 ^ 5)) as Bb.
  assert (Hrange : 0 <= darken c factor_0_7 < 2 ^ 16)
    by (unfold darken, uint16; apply Z.mod_pos_bound; lia).
  split; [exact Hr|]. split; [exact Hg|]. split; [exact Hb|].
  split; [rewrite Hr, Ar; Z.to_euclidean_division_equations; lia|].
  split; [rewrite Hg, Ag; Z.to_euclidean_division_equations; lia|].
  split; [rewrite Hb, Ab; Z.to_euclidean_division_equations; lia|].
  split; [exact Hrange|].
  intros Hc Heq. rewrite Heq in Hr, Hg, Hb. rewrite Ar in Hr. rewrite Ag in Hg.
  rewrite Ab in Hb. apply Hc. clear Heq Hrange Ar Ag Ab.
  Z.to_euclidean_division_equations. lia.
Qed.

Lemma darken_scales_each_field_witness :
  0 <= COLOR_ESC < 2 ^ 16
  /\ red (darken COLOR_ESC factor_0_7) = 21
  /\ darken COLOR_ESC factor_0_7 <> COLOR_ESC.
Proof.
  assert (H : 0 <= COLOR_ESC < 2 ^ 16) by (vm_compute; split; [discriminate|reflexivity]).
  pose proof (darken_scales_each_field COLOR_ESC H) as (Hr & _ & _ & _ & _ & _ & _ & Hne).
  split; [exact H|]. split; [exact Hr|].
  apply Hne. discriminate.
Defined.

(** ** The picture *)

Lemma key_colours :
  darken COLOR_ESC factor_0_7 = 0xA800
  /\ darken COLOR_SHIFT factor_0_7 = 0x0015
  /\ darken 0x021F factor_0_7 = 0x0175.
Proof. repeat split; vm_compute; reflexivity. Qed.

(** Decide every coordinate comparison left in the goal. *)
Ltac compare_coordinates :=
  repeat match goal with
         | |- context [?lo <=? ?v] => destruct (Z.leb_spec lo v)
         | |- context [?v <? ?hi] => destruct (Z.ltb_spec v hi)
         end.

(** X2. The keys are painted where they are touched: for an active
    touch at column [x] of a display [w] wide and any row of the picture,
    the pixel lies in the rectangle [draw_keys] fills for Escape exactly
    when [loop] classifies the touch as zone 0, in the one it fills for
    Shift exactly when the zone is 1, and in neither exactly when the
    zone is none; the two colours are never the same. *)
Theorem keys_painted_where_touched (s : Sample) (h y : Z) (lock : bool) (pz : Z) :
  touch_active s = true ->
  0 <= y < h ->
  let bg := background_at (draw_keys_display (width s) h lock pz) (t_x s) y None in
  let esc := if pz =? 0 then darken COLOR_ESC factor_0_7 else COLOR_ESC in
  let sh_base := if lock then 0x021F else COLOR_SHIFT in
  let sh := if pz =? 1 then darken sh_base factor_0_7 else sh_base in
  esc <> sh
  /\ (touch_zone s = 0 <-> bg = Some esc)
  /\ (touch_zone s = 1 <-> bg = Some sh)
  /\ (touch_zone s = -1 <-> bg = None).
Proof.
  intros Ha Hy. cbv zeta.
  destruct key_colours as (Desc & Dsh & Dlock).
  unfold touch_zone. unfold touch_active in Ha. rewrite Ha.
  unfold draw_keys_display. cbv zeta. rewrite Desc.
  set (esc := if pz =? 0 then 0xA800 else COLOR_ESC).
  set (sh := if pz =? 1
             then darken (if lock then 0x021F else COLOR_SHIFT) factor_0_7
             else if lock then 0x021F else COLOR_SHIFT).
  assert (Hne : esc <> sh).
  { unfold esc, sh. destruct lock; rewrite ?Dsh, ?Dlock;
      destruct (pz =? 0), (pz =? 1); discriminate. }
  split; [exact Hne|].
  destruct (half_width_bounds (width s)) as [Hpos Hneg].
  clearbody esc sh.
  destruct lock; cbn [app background_at fills];
    compare_coordinates;
    cbn [andb negb]; try lia;
    repeat split; intros E; try discriminate E; try reflexivity; try lia;
    try (injection E as E; congruence).
Qed.

Lemma keys_painted_where_touched_witness :
  touch_zone (poll_touch touch 200 0) = 1
  /\ background_at (draw_keys_display 240 240 true 1) 200 100 None = Some 0x0175.
Proof.
  assert (Ha : touch_active (poll_touch touch 200 0) = true) by reflexivity.
  assert (Hy : 0 <= 100 < 240) by (split; [discriminate|reflexivity]).
  pose proof (keys_painted_where_touched (poll_touch touch 200 0) 240 100 true 1 Ha Hy)
    as (_ & _ & Hshift & _).
  cbv zeta in Hshift.
  assert (Hz : touch_zone (poll_touch touch 200 0) = 1) by reflexivity.
  split; [exact Hz|].
  etransitivity; [exact (proj1 Hshift Hz)|]. vm_compute. reflexivity.
Defined.

(** X3. The picture tells the states apart: two [draw_keys] pictures on
    the same display are the same list of drawing calls exactly when the
    lock flag is the same and the pressed zone is read the same way
    (0, 1, or neither). *)
Theorem picture_determines_state (w h : Z) (lock1 lock2 : bool) (pz1 pz2 : Z) :
  draw_keys_display w h lock1 pz1 = draw_keys_display w h lock2 pz2
  <-> lock1 = lock2 /\ pressed_class pz1 = pressed_class pz2.
Proof.
  destruct key_colours as (Desc & Dsh & Dlock).
  unfold draw_keys_display, pressed_class. cbv zeta. rewrite Desc.
  split.
  - intros H.
    assert (Hlock : lock1 = lock2)
      by (destruct lock1, lock2; try reflexivity; discriminate H).
    subst lock2. split; [reflexivity|].
    injection H as He Hs.
    destruct lock1; rewrite ?Dsh, ?Dlock in Hs;
      destruct (pz1 =? 0), (pz2 =? 0), (pz1 =? 1), (pz2 =? 1);
      try reflexivity; try discriminate He; discriminate Hs.
  - intros [-> Hc].
    assert ((pz1 =? 0) = (pz2 =? 0) /\ (pz1 =? 1) = (pz2 =? 1)) as [-> ->].
    { destruct (Z.eqb_spec pz1 0), (Z.eqb_spec pz2 0),
        (Z.eqb_spec pz1 1), (Z.eqb_spec pz2 1);
        try discriminate Hc; try lia; split; reflexivity. }
    reflexivity.
Qed.

(** X4. On a display at least 2 pixels wide and 25 pixels high every
    label is anchored on its own key: "ESC" on the Escape rectangle, and
    "Shift", or "Shift" and "Lock" 12 pixels above and below the middle
    when the lock is set, on the Shift rectangle. *)
Theorem labels_anchored_on_their_keys (w h : Z) (lock : bool) (pz : Z) :
  2 <= w -> 25 <= h ->
  let cmds := draw_keys_display w h lock pz in
  let esc := if pz =? 0 then darken COLOR_ESC factor_0_7 else COLOR_ESC in
  let sh_base := if lock then 0x021F else COLOR_SHIFT in
  let sh := if pz =? 1 then darken sh_base factor_0_7 else sh_base in
  forall text x y,
    In (drawString text x y) cmds ->
    background_at cmds x y None = Some (if String.eqb text "ESC" then esc else sh).
Proof.
  intros Hw Hh. cbv zeta. intros text x y Hin.
  unfold draw_keys_display in *. cbv zeta in *.
  set (esc := if pz =? 0 then darken COLOR_ESC factor_0_7 else COLOR_ESC) in *.
  set (sh := if pz =? 1
             then darken (if lock then 0x021F else COLOR_SHIFT) factor_0_7
             else if lock then 0x021F else COLOR_SHIFT) in *.
  clearbody esc sh.
  assert (Hq : 1 <= Z.quot w 2 /\ Z.quot w 2 < w
               /\ 0 <= Z.quot (Z.quot w 2) 2 < Z.quot w 2
               /\ 0 <= Z.quot (w - Z.quot w 2) 2 < w - Z.quot w 2
               /\ 12 <= Z.quot h 2 /\ Z.quot h 2 + 12 < h)
    by (Z.to_euclidean_division_equations; lia).
  destruct lock; cbn [app In] in Hin;
    repeat (destruct Hin as [Hin|Hin]; try discriminate Hin; try contradiction);
    injection Hin as <- <- <-;
    cbn [app background_at fills String.eqb Ascii.eqb Bool.eqb andb];
    compare_coordinates;
    cbn [andb]; try reflexivity; lia.
Qed.

Lemma labels_anchored_on_their_keys_witness :
  background_at (draw_keys_display 240 240 true (-1)) 180 132 None = Some 0x021F.
Proof.
  assert (Hw : 2 <= 240) by discriminate.
  assert (Hh : 25 <= 240) by discriminate.
  apply (labels_anchored_on_their_keys 240 240 true (-1) Hw Hh "Lock"%string 180 132).
  apply in_or_app. right. cbn [In]. tauto.
Defined.

(** ** The lock shown on the screen *)

Lemma shown_lock_app (shown : bool) (a b : list action) :
  shown_lock shown (a ++ b) = shown_lock (shown_lock shown a) b.
Proof.
  revert shown. induction a as [|x a IH]; intros shown; [reflexivity|].
  destruct x; cbn [app shown_lock]; apply IH.
Qed.

Lemma shown_lock_arrows (shown : bool) (k : hid_key) (n : nat) :
  shown_lock shown (concat (repeat (arrow_tx k) n)) = shown.
Proof. induction n as [|n IH]; [reflexivity|]. cbn [repeat concat arrow_tx app shown_lock]. exact IH. Qed.

Lemma shown_lock_batch (k : hid_key) (c : ascii) (lock : bool) (n : nat) :
  shown_lock lock (batch_tx k c lock n)
  = match n with O => lock | S _ => false end.
Proof.
  destruct n as [|n]; [reflexivity|]. unfold batch_tx.
  rewrite shown_lock_app, shown_lock_arrows. now destruct lock.
Qed.

Lemma touch_part_shown (s : Sample) (g : Globals) :
  shown_lock (shift_lock g) (actions_of (touch_part s g))
  = shift_lock (state_of (touch_part s g)).
Proof.
  rewrite touch_part_run. cbn [actions_of state_of fst snd shift_lock].
  unfold shift_toggles, escape_fires.
  destruct (touch_zone s =? last_touch_zone g), (t_state s), (touch_zone s =? 0),
    (touch_zone s =? 1), (shift_lock g); reflexivity.
Qed.

Lemma encoder_part_shown (s : Sample) (g : Globals) :
  shown_lock (shift_lock g) (actions_of (encoder_part s g))
  = shift_lock (state_of (encoder_part s g)).
Proof.
  rewrite encoder_part_run. cbv zeta.
  destruct (encoder_delta s g =? 0); [reflexivity|].
  destruct (0 <? encoder_delta s g); cbn [actions_of state_of fst snd];
    rewrite shown_lock_batch; destruct (Z.to_nat _); reflexivity.
Qed.

Lemma button_part_shown (s : Sample) (g : Globals) :
  shown_lock (shift_lock g) (actions_of (button_part s g))
  = shift_lock (state_of (button_part s g)).
Proof.
  rewrite button_part_run. cbn [actions_of state_of fst snd shift_lock].
  destruct (long_press_starts s g), (repeat_fires s g), (enter_fires s g),
    (shift_lock g); reflexivity.
Qed.

Lemma loop_shown (s : Sample) (g : Globals) :
  shown_lock (shift_lock g) (actions_of (loop s g)) = shift_lock (state_of (loop s g)).
Proof.
  rewrite loop_run. cbn [actions_of state_of fst snd].
  rewrite !shown_lock_app, touch_part_shown, encoder_part_shown.
  apply button_part_shown.
Qed.

(** X5. The lock label never goes stale: after [setup] and any number
    of iterations, the lock flag that the latest [draw_keys] call drew is
    the value [shift_lock] has; every change of the flag is followed by a
    redraw before the iteration ends. *)
Theorem lock_label_never_stale :
  (forall ss g,
      shown_lock (shift_lock g) (snd (run_loop ss g))
      = shift_lock (final_globals ss g))
  /\ (forall e shown ss,
         shown_lock shown
           (actions_of (setup e initial_globals)
            ++ snd (run_loop ss (state_of (setup e initial_globals))))
         = shift_lock (final_globals ss (state_of (setup e initial_globals)))).
Proof.
  assert (Hrun : forall ss g,
             shown_lock (shift_lock g) (snd (run_loop ss g))
             = shift_lock (final_globals ss g)).
  { induction ss as [|s ss IH]; intros g; [reflexivity|].
    rewrite final_globals_cons, run_loop_cons. cbn [snd].
    rewrite shown_lock_app, loop_shown. apply IH. }
  split; [exact Hrun|].
  intros e shown ss. rewrite shown_lock_app.
  change (shown_lock shown (actions_of (setup e initial_globals)))
    with (shift_lock (state_of (setup e initial_globals))).
  apply Hrun.
Qed.

(** ** Quiet samples *)

Lemma loop_quiet (s : Sample) (g : Globals) :
  in_long (prev_pos g) -> delete_mode_active g = false -> quiet g s ->
  loop s g = (tt, g, []).
Proof.
  intros Hp Hd (Hb & He & Hz & Henc & Hwp & Hwr & Hpf).
  rewrite loop_run.
  assert (Ht : touch_part s g = (tt, g, [])).
  { rewrite touch_part_run. destruct (not_touch_begin s Hb) as [-> ->].
    rewrite Hz, Z.eqb_refl.
    destruct (touch_state_eqb (t_state s) touch_end) eqn:E;
      [apply touch_state_eqb_eq in E; contradiction|].
    destruct g as [p [|] z ps ld d]; reflexivity. }
  rewrite Ht. cbn [state_of actions_of fst snd app].
  assert (Hq : encoder_part s g = (tt, g, [])).
  { rewrite encoder_part_run. cbv zeta. unfold encoder_delta.
    unfold in_long, long_min, long_max in Hp.
    rewrite wrap_long_id by (unfold in_long, long_min, long_max; lia).
    set (d := encoder s - prev_pos g) in *.
    destruct (Z.eqb_spec d 0); [reflexivity|].
    assert (Hw : wrap_long (- d) = - d)
      by (apply wrap_long_id; unfold in_long, long_min, long_max; lia).
    rewrite Hw.
    assert (Z.quot d 4 = 0 /\ Z.quot (- d) 4 = 0) as [-> ->]
      by (Z.to_euclidean_division_equations; lia).
    cbn [Z.to_nat batch_tx Z.mul].
    change (wrap_long 0) with 0. rewrite Z.add_0_r, Z.sub_0_r.
    rewrite wrap_long_id by (unfold in_long, long_min, long_max; lia).
    destruct (0 <? d); destruct g; reflexivity. }
  rewrite Hq. cbn [state_of actions_of fst snd app].
  rewrite (button_idle s g Hd Hwp Hwr Hpf). reflexivity.
Qed.

(** X6. Quiet input changes nothing: while no touch begins or ends and
    the zone stays the recorded one, the encoder stays within three
    ticks of [prev_pos] and the button reports nothing, any number of
    iterations outside repeat mode send no key, redraw nothing and leave
    every global as it was; this holds in particular right after
    [setup]. *)
Theorem quiet_input_changes_nothing (ss : list Sample) (g : Globals) :
  in_long (prev_pos g) ->
  delete_mode_active g = false ->
  Forall (quiet g) ss ->
  run_loop ss g = (g, []).
Proof.
  intros Hp Hd Hall. induction Hall as [|s ss Hs Hrest IH]; [reflexivity|].
  rewrite run_loop_cons, (loop_quiet s g Hp Hd Hs).
  cbn [state_of actions_of fst snd app]. rewrite IH. reflexivity.
Qed.

Lemma quiet_input_changes_nothing_witness :
  run_loop [poll_encoder 100; poll_encoder 103; poll_encoder 98]
           (state_of (setup 100 initial_globals))
  = (state_of (setup 100 initial_globals), []).
Proof.
  apply quiet_input_changes_nothing.
  - vm_compute. split; discriminate.
  - reflexivity.
  - repeat constructor; try discriminate.
Defined.

(** ** Keys held down *)

Lemma keys_down_app (down down' : list hid_key) (a b : list action) :
  keys_down down a = Some down' -> keys_down down (a ++ b) = keys_down down' b.
Proof.
  revert down. induction a as [|x a IH]; intros down H.
  - cbn in H. injection H as ->. reflexivity.
  - destruct x as [k|k|c|z l]; cbn [app keys_down] in H |- *.
    + destruct (existsb (hid_key_eqb k) down); [discriminate H|]. now apply IH.
    + destruct down as [|k' d]; [discriminate H|].
      destruct (hid_key_eqb k k'); [|discriminate H]. now apply IH.
    + destruct down as [|[] [|? ?]]; try discriminate H; now apply IH.
    + now apply IH.
Qed.

Lemma keys_down_arrows (k : hid_key) (n : nat) :
  keys_down [] (concat (repeat (arrow_tx k) n)) = Some [].
Proof.
  induction n as [|n IH]; [reflexivity|]. cbn [repeat concat].
  rewrite (keys_down_app [] [] (arrow_tx k)); [exact IH|].
  destruct k; reflexivity.
Qed.

Lemma keys_down_batch (k : hid_key) (c : ascii) (lock : bool) (n : nat) :
  keys_down [] (batch_tx k c lock n) = Some [].
Proof.
  destruct n as [|n]; [reflexivity|]. unfold batch_tx.
  rewrite (keys_down_app [] [] _); [apply keys_down_arrows|].
  destruct lock, k; reflexivity.
Qed.

Lemma loop_keys_down (s : Sample) (g : Globals) :
  keys_down [] (actions_of (loop s g)) = Some [].
Proof.
  rewrite loop_run. cbn [actions_of snd].
  rewrite (keys_down_app [] []).
  - rewrite (keys_down_app [] []).
    + rewrite button_part_run. cbn [snd].
      destruct (long_press_starts s _), (repeat_fires s _), (enter_fires s _),
        (shift_lock _); reflexivity.
    + rewrite encoder_part_run. cbv zeta.
      destruct (encoder_delta s _ =? 0); [reflexivity|].
      destruct (0 <? encoder_delta s _); apply keys_down_batch.
  - rewrite touch_part_run. cbn [snd].
    destruct (touch_zone s =? last_touch_zone g), (escape_fires s),
      (shift_toggles s), (touch_state_eqb (t_state s) touch_end); reflexivity.
Qed.

(** X7. No key is ever left down.  In every run of iterations each key
    that is pressed is released before any other key is released, no key
    is pressed twice, a character is only written with no key or just
    the left shift key down, and when an iteration ends no key is
    down. *)
Theorem no_key_left_down (ss : list Sample) (g : Globals) :
  keys_down [] (snd (run_loop ss g)) = Some [].
Proof.
  revert g. induction ss as [|s ss IH]; intros g; [reflexivity|].
  rewrite run_loop_cons. cbn [snd].
  rewrite (keys_down_app [] [] _ _ (loop_keys_down s g)). apply IH.
Qed.

(** ** The clock *)

(** The parts before the button code leave the button's variables
    alone. *)
Lemma before_button_state (s : Sample) (g : Globals) :
  let g2 := state_of (encoder_part s (state_of (touch_part s g))) in
  delete_mode_active g2 = delete_mode_active g
  /\ last_delete_ms g2 = last_delete_ms g
  /\ press_start_ms g2 = press_start_ms g.
Proof.
  cbv zeta. rewrite encoder_part_run, touch_part_run. cbv zeta.
  destruct (encoder_delta s _ =? 0); [repeat split|].
  destruct (0 <? encoder_delta s _); cbn [state_of fst snd];
    destruct (Z.to_nat _); repeat split.
Qed.

Lemma loop_count_button (k : IntentKind) (s : Sample) (g : Globals) :
  k = Delete \/ k = Enter ->
  count_kind k (intents (loop s g))
  = count_kind k (intents (button_part s
                             (state_of (encoder_part s (state_of (touch_part s g)))))).
Proof.
  intros Hk. destruct (loop_intents s g) as [-> _]. rewrite !count_kind_app.
  destruct (touch_part_intents s g) as [-> _].
  destruct (encoder_part_batch s (state_of (touch_part s g))) as (k' & n & Hk' & -> & _).
  rewrite count_kind_step_batch.
  destruct Hk as [-> | ->]; destruct k'; try discriminate Hk';
    destruct (escape_fires s); reflexivity.
Qed.

Lemma loop_repeat_step (s : Sample) (g : Globals) :
  delete_mode_active g = true -> wasReleased s = false ->
  0 <= last_delete_ms g <= ms_repeat s -> ms_repeat s < 2 ^ 32 ->
  let g' := state_of (loop s g) in
  delete_mode_active g' = true
  /\ last_delete_ms g' <= ms_repeat s
  /\ 500 * Z.of_nat (count_kind Delete (intents (loop s g))) + last_delete_ms g
     <= last_delete_ms g'.
Proof.
  intros Hd Hwr Hl Hn. cbv zeta.
  rewrite loop_count_button by (left; reflexivity). rewrite loop_state.
  destruct (before_button_state s g) as (Hd2 & Hl2 & _). cbv zeta in Hd2, Hl2.
  set (g2 := state_of (encoder_part s (state_of (touch_part s g)))) in *.
  rewrite <- Hd2 in Hd. rewrite <- Hl2 in Hl |- *.
  destruct (button_repeat s g2 Hd Hwr) as (Hi & Hd' & Hl'). cbv zeta in Hi, Hl'.
  rewrite Hi, Hd', Hl'.
  rewrite (u32_id (ms_repeat s)) by lia.
  rewrite (u32_id (ms_repeat s - last_delete_ms g2)) by lia.
  destruct (Z.leb_spec 500 (ms_repeat s - last_delete_ms g2)).
  - rewrite count_kind_single. cbn [IntentKind_eqb Z.of_nat Pos.of_succ_nat].
    repeat split; lia.
  - change (count_kind Delete []) with O. repeat split; lia.
Qed.

(** X8. Auto-repeat is rate limited.  While the button stays down in
    repeat mode and the clock read on line 203 never goes back, the
    Deletes sent are at least 500 ms apart: over any run of iterations,
    500 ms times the number of Deletes is at most the time elapsed since
    the Delete recorded in [last_delete_ms]; the code stays in repeat
    mode throughout. *)
Theorem repeat_is_rate_limited (ss : list Sample) (g : Globals) :
  delete_mode_active g = true ->
  0 <= last_delete_ms g ->
  held_clock_from (last_delete_ms g) ss ->
  500 * Z.of_nat (count_kind Delete (trace_intents ss g))
  <= last_clock (last_delete_ms g) ss - last_delete_ms g
  /\ delete_mode_active (final_globals ss g) = true.
Proof.
  intros Hd H0 Hc.
  assert (Hgen : forall ss g t,
             delete_mode_active g = true ->
             0 <= last_delete_ms g <= t ->
             held_clock_from t ss ->
             500 * Z.of_nat (count_kind Delete (trace_intents ss g)) + last_delete_ms g
             <= last_delete_ms (final_globals ss g)
             /\ last_delete_ms (final_globals ss g) <= last_clock t ss
             /\ delete_mode_active (final_globals ss g) = true).
  { clear. induction ss as [|s ss IH]; intros g t Hd Hl Hc.
    - unfold trace_intents, final_globals. cbn. repeat split; try lia. exact Hd.
    - destruct Hc as (Hwr & Ht & Hc).
      rewrite trace_intents_cons, final_globals_cons, count_kind_app.
      destruct (loop_repeat_step s g Hd Hwr) as (Hd1 & Hl1 & Hcount); try lia.
      cbv zeta in Hd1, Hl1, Hcount.
      destruct (IH (state_of (loop s g)) (ms_repeat s) Hd1) as (I1 & I2 & I3);
        [lia|exact Hc|].
      cbn [last_clock]. repeat split; try lia. exact I3. }
  destruct (Hgen ss g (last_delete_ms g) Hd) as (I1 & I2 & I3); [lia|exact Hc|].
  split; [lia|exact I3].
Qed.

Lemma repeat_is_rate_limited_witness :
  500 * Z.of_nat (count_kind Delete
                    (trace_intents (held_polls 121 4000 10)
                       (mkGlobals 0 false (-1) 1000 4000 true)))
  <= 5200 - 4000.
Proof.
  apply (repeat_is_rate_limited (held_polls 121 4000 10)
                                (mkGlobals 0 false (-1) 1000 4000 true)).
  - reflexivity.
  - discriminate.
  - vm_compute. repeat (split; [reflexivity|]; split; [split; [discriminate|reflexivity]|]).
    exact I.
Defined.

Lemma u32_diff (t d : Z) : 0 <= d < 2 ^ 32 -> u32 (u32 (t + d) - u32 t) = d.
Proof.
  intros Hd. unfold u32.
  rewrite <- Zminus_mod. replace (t + d - t) with d by lia.
  now apply Z.mod_small.
Qed.

(** X9. The two timers survive the 32-bit clock wrapping round.  If the
    clock read [t] when a Delete was recorded and has advanced by [d]
    (less than 2^32) since, an iteration in repeat mode with the button
    down sends one Delete and records the new time exactly when
    [d >= 500], and otherwise sends nothing; if it read [t] when the
    press was recorded, the button code sends a release outside repeat
    mode as Enter exactly when [d < 3000], except that a press recorded
    when the clock read 0 counts as not recorded and its release is
    always sent as Enter. *)
Theorem timers_survive_clock_wrap (s : Sample) (g : Globals) (t d : Z) :
  0 <= d < 2 ^ 32 ->
  (delete_mode_active g = true -> wasReleased s = false ->
   last_delete_ms g = u32 t -> ms_repeat s = t + d ->
   intents (button_part s g) = (if 500 <=? d then [(Delete, false)] else [])
   /\ last_delete_ms (state_of (button_part s g))
      = (if 500 <=? d then u32 (t + d) else u32 t))
  /\ (delete_mode_active g = false -> wasReleased s = true ->
      wasPressed s = false -> pressedFor_3000 s = false ->
      press_start_ms g = u32 t -> ms_release s = t + d ->
      intents (button_part s g)
      = (if (u32 t =? 0) || (d <? 3000) then [(Enter, shift_lock g)] else [])).
Proof.
  intros Hd. split.
  - intros Hm Hwr Hl Hn.
    destruct (button_repeat s g Hm Hwr) as (Hi & _ & Hl'). cbv zeta in Hi, Hl'.
    rewrite Hi, Hl', Hl, Hn, u32_diff by exact Hd. split; reflexivity.
  - intros Hm Hwr Hwp Hpf Hps Hn.
    destruct (button_part_intents s g) as [-> _].
    button_tests. unfold press_start_seen, held_ms.
    rewrite Hm, Hwr, Hwp, Hpf, Hps, Hn. cbn [andb orb negb app].
    destruct (u32 t =? 0); cbn [negb orb]; [reflexivity|].
    rewrite u32_diff by exact Hd. now destruct (d <? 3000).
Qed.

Lemma timers_survive_clock_wrap_witness :
  intents (button_part (poll_button false false true 204 0)
                       (mkGlobals 0 false (-1) 1000 (2 ^ 32 - 300) true))
  = [(Delete, false)]
  /\ intents (button_part (poll_button false true false 2899 0)
                          (mkGlobals 0 false (-1) (2 ^ 32 - 100) 0 false))
     = [(Enter, false)].
Proof.
  assert (H1 : 0 <= 504 < 2 ^ 32) by (split; [discriminate|reflexivity]).
  assert (H2 : 0 <= 2999 < 2 ^ 32) by (split; [discriminate|reflexivity]).
  split.
  - apply (proj1 (timers_survive_clock_wrap
                    (poll_button false false true 204 0)
                    (mkGlobals 0 false (-1) 1000 (2 ^ 32 - 300) true)
                    (- 300) 504 H1)); reflexivity.
  - apply (proj2 (timers_survive_clock_wrap
                    (poll_button false true false 2899 0)
                    (mkGlobals 0 false (-1) (2 ^ 32 - 100) 0 false)
                    (- 100) 2999 H2)); reflexivity.
Defined.

(** ** The lock over many iterations *)

Lemma loop_lock (s : Sample) (g : Globals) :
  shift_lock (state_of (loop s g))
  = xorb (shift_lock g) (shift_toggles s)
    && (length (filter modifier_sensitive (intents (loop s g))) =? 0)%nat.
Proof.
  destruct (loop_intents s g) as [-> _]. rewrite loop_state.
  destruct (touch_part_intents s g) as [-> _].
  assert (Ht : shift_lock (state_of (touch_part s g))
               = xorb (shift_lock g) (shift_toggles s))
    by (now rewrite touch_part_run).
  set (g1 := state_of (touch_part s g)) in *.
  destruct (encoder_part_batch s g1) as (k & n & Hk & -> & Hlock).
  set (g2 := state_of (encoder_part s g1)) in *.
  destruct (button_part_intents s g2) as [-> _].
  rewrite button_part_run. cbn [state_of fst snd shift_lock].
  rewrite Hlock, Ht, !filter_app, step_batch_sensitive, !length_app,
    step_batch_length by exact Hk.
  destruct (escape_fires s), (long_press_starts s g2), (repeat_fires s g2),
    (enter_fires s g2); cbn [filter modifier_sensitive fst length app negb Nat.add];
    rewrite ?Nat.add_0_r, ?andb_true_r; try reflexivity;
    rewrite Nat.add_1_r; cbn [Nat.eqb]; now rewrite !andb_false_r.
Qed.

(** X10. Between modifier-sensitive intents the lock only follows the
    Shift key: over any run of iterations that sends no step and no
    Enter, the lock ends up flipped exactly when the number of touches
    that began in the Shift zone is odd; two such touches restore it. *)
Theorem lock_follows_toggle_parity (ss : list Sample) (g : Globals) :
  filter modifier_sensitive (trace_intents ss g) = [] ->
  shift_lock (final_globals ss g)
  = xorb (shift_lock g) (Nat.odd (toggle_count ss)).
Proof.
  revert g. induction ss as [|s ss IH]; intros g H.
  - cbn. now rewrite xorb_false_r.
  - rewrite trace_intents_cons, filter_app in H.
    apply app_eq_nil in H. destruct H as [Hs Hrest].
    rewrite final_globals_cons, (IH _ Hrest), loop_lock, Hs.
    cbn [length Nat.eqb]. rewrite andb_true_r.
    unfold toggle_count. cbn [filter].
    destruct (shift_toggles s); cbn [length].
    + rewrite Nat.odd_succ, <- Nat.negb_odd.
      destruct (shift_lock g), (Nat.odd (length (filter shift_toggles ss))); reflexivity.
    + now rewrite xorb_false_r.
Qed.

Lemma lock_follows_toggle_parity_witness :
  shift_lock (final_globals [poll_touch touch_begin 200 0; poll_touch touch_end 200 1;
                             poll_touch touch_begin 200 2; poll_touch hold 200 3]
                            initial_globals) = false.
Proof.
  apply (lock_follows_toggle_parity
           [poll_touch touch_begin 200 0; poll_touch touch_end 200 1;
            poll_touch touch_begin 200 2; poll_touch hold 200 3] initial_globals).
  reflexivity.
Defined.

(** ** The build without [KEY_LR_MODE] *)

Lemma step_right_ascii_run (g : Globals) :
  step_right_ascii g = (tt, clear_lock g, batch_tx_ascii "d" (shift_lock g) 1).
Proof. destruct g as [p [|] z ps ld d]; reflexivity. Qed.

Lemma step_left_ascii_run (g : Globals) :
  step_left_ascii g = (tt, clear_lock g, batch_tx_ascii "a" (shift_lock g) 1).
Proof. destruct g as [p [|] z ps ld d]; reflexivity. Qed.

Section AsciiBatches.

Variables (c : ascii) (body : M unit).
Hypothesis body_run :
  forall g, body g = (tt, clear_lock g, batch_tx_ascii c (shift_lock g) 1).

Lemma repeat_body_ascii_run (n : nat) (g : Globals) :
  repeat_body n body g
  = (tt, match n with O => g | S _ => clear_lock g end,
     batch_tx_ascii c (shift_lock g) n).
Proof.
  revert g. induction n as [|n IH]; intros g; [reflexivity|].
  cbn [repeat_body]. unfold bind at 1. rewrite body_run, IH.
  replace (match n with O => clear_lock g | S _ => clear_lock (clear_lock g) end)
    with (clear_lock g) by (destruct n; reflexivity).
  f_equal. change (shift_lock (clear_lock g)) with false.
  replace (batch_tx_ascii c false n) with (concat (repeat [KeyWrite c] n))
    by (destruct n; reflexivity).
  destruct (shift_lock g); cbn [batch_tx_ascii repeat concat ascii_tx app];
    rewrite ?app_nil_r; reflexivity.
Qed.

End AsciiBatches.

Lemma encoder_part_ascii_run (s : Sample) (g : Globals) :
  encoder_part_ascii s g =
  let delta := encoder_delta s g in
  if delta =? 0 then (tt, g, [])
  else if 0 <? delta then
    let steps := Z.quot delta 4 in
    (tt,
     with_prev_pos (wrap_long (prev_pos g + wrap_long (steps * 4)))
                   (match Z.to_nat steps with O => g | S _ => clear_lock g end),
     batch_tx_ascii "d" (shift_lock g) (Z.to_nat steps))
  else
    let steps := Z.quot (wrap_long (- delta)) 4 in
    (tt,
     with_prev_pos (wrap_long (prev_pos g - wrap_long (steps * 4)))
                   (match Z.to_nat steps with O => g | S _ => clear_lock g end),
     batch_tx_ascii "a" (shift_lock g) (Z.to_nat steps)).
Proof.
  unfold encoder_part_ascii, encoder_delta, for_steps. cbv zeta.
  unfold bind at 1. cbn [gets].
  destruct (wrap_long (encoder s - prev_pos g) =? 0); [reflexivity|]. cbn [negb].
  destruct (0 <? wrap_long (encoder s - prev_pos g)); unfold bind.
  - rewrite (repeat_body_ascii_run "d" step_right_ascii step_right_ascii_run).
    cbn [gets set_prev_pos modify]. rewrite app_nil_r.
    destruct (Z.to_nat _); reflexivity.
  - rewrite (repeat_body_ascii_run "a" step_left_ascii step_left_ascii_run).
    cbn [gets set_prev_pos modify]. rewrite app_nil_r.
    destruct (Z.to_nat _); reflexivity.
Qed.

Lemma plain_keys_batch (k : hid_key) (c : ascii) (lock : bool) (n : nat)
                       (l : list action) :
  (k = KEY_RIGHT_ARROW /\ c = "d"%char) \/ (k = KEY_DOWN_ARROW /\ c = "a"%char) ->
  plain_keys (batch_tx k c lock n ++ l) = batch_tx_ascii c lock n ++ plain_keys l.
Proof.
  intros Hk.
  assert (Hplain : forall m,
             plain_keys (concat (repeat (arrow_tx k) m) ++ l)
             = concat (repeat [KeyWrite c] m) ++ plain_keys l).
  { induction m as [|m IH]; [reflexivity|].
    cbn [repeat concat]. rewrite <- !app_assoc.
    destruct Hk as [[-> ->] | [-> ->]];
      cbn [arrow_tx app plain_keys]; now rewrite IH. }
  destruct n as [|n]; [reflexivity|].
  unfold batch_tx, batch_tx_ascii. rewrite <- !app_assoc.
  destruct lock.
  - cbn [ascii_tx app plain_keys]. now rewrite Hplain.
  - destruct Hk as [[-> ->] | [-> ->]];
      cbn [ascii_tx arrow_tx app plain_keys]; now rewrite Hplain.
Qed.

Lemma plain_keys_touch (s : Sample) (g : Globals) (l : list action) :
  plain_keys (actions_of (touch_part s g) ++ l)
  = actions_of (touch_part s g) ++ plain_keys l.
Proof.
  rewrite touch_part_run. cbn [actions_of snd].
  destruct (touch_zone s =? last_touch_zone g), (escape_fires s),
    (shift_toggles s), (touch_state_eqb (t_state s) touch_end); reflexivity.
Qed.

Lemma plain_keys_encoder (s : Sample) (g : Globals) (l : list action) :
  plain_keys (actions_of (encoder_part s g) ++ l)
  = actions_of (encoder_part_ascii s g) ++ plain_keys l.
Proof.
  rewrite encoder_part_run, encoder_part_ascii_run. cbv zeta.
  destruct (encoder_delta s g =? 0); [reflexivity|].
  destruct (0 <? encoder_delta s g); cbn [actions_of snd];
    apply plain_keys_batch; [left|right]; split; reflexivity.
Qed.

Lemma plain_keys_button (s : Sample) (g : Globals) :
  plain_keys (actions_of (button_part s g)) = actions_of (button_part s g).
Proof.
  rewrite button_part_run. cbn [actions_of snd].
  destruct (long_press_starts s g), (repeat_fires s g), (enter_fires s g),
    (shift_lock g); reflexivity.
Qed.

Lemma encoder_part_ascii_state (s : Sample) (g : Globals) :
  state_of (encoder_part_ascii s g) = state_of (encoder_part s g).
Proof.
  rewrite encoder_part_ascii_run, encoder_part_run. cbv zeta.
  destruct (encoder_delta s g =? 0); [reflexivity|].
  destruct (0 <? encoder_delta s g); reflexivity.
Qed.

Lemma loop_ascii_run (s : Sample) (g : Globals) :
  let rt := touch_part s g in
  let re := encoder_part_ascii s (state_of rt) in
  let rb := button_part s (state_of re) in
  loop_ascii s g = (tt, state_of rb, actions_of rt ++ actions_of re ++ actions_of rb).
Proof.
  cbv zeta. unfold loop_ascii, bind, state_of, actions_of.
  destruct (touch_part s g) as [[[] g1] l1]. cbn [fst snd].
  destruct (encoder_part_ascii s g1) as [[[] g2] l2]. cbn [fst snd].
  destruct (button_part s g2) as [[[] g3] l3]. reflexivity.
Qed.

(** X11. The build without [KEY_LR_MODE] differs from the default build
    only in the key that carries a step sent with the lock clear: where
    the default build presses and releases the right arrow it writes 'd'
    through [sendKey], and where the default build presses and releases
    the down arrow it writes 'a'.  Every other action of an iteration,
    the order of the actions and the globals left are the same. *)
Theorem ascii_build_differs_in_step_keys (s : Sample) (g : Globals) :
  actions_of (loop_ascii s g) = plain_keys (actions_of (loop s g))
  /\ state_of (loop_ascii s g) = state_of (loop s g).
Proof.
  rewrite loop_ascii_run, loop_run. cbn [actions_of state_of fst snd].
  rewrite encoder_part_ascii_state. split; [|reflexivity].
  pose proof (plain_keys_touch s g) as Ht.
  pose proof (plain_keys_encoder s (state_of (touch_part s g))) as He.
  pose proof (plain_keys_button s
                (state_of (encoder_part s (state_of (touch_part s g))))) as Hb.
  unfold actions_of, state_of in *. now rewrite Ht, He, Hb.
Qed.

(** ** One iteration *)

(** X12. What one iteration can send: never both Delete and Enter,
    never steps in both directions, at most one Escape, one Enter and two
    Deletes; a Delete is only sent by an iteration that ends in repeat
    mode, and Enter only by one that sees the button released, ends
    outside repeat mode and clears [press_start_ms]. *)
Theorem one_iteration_sends (s : Sample) (g : Globals) :
  let its := intents (loop s g) in
  let g' := state_of (loop s g) in
  (count_kind Delete its = O \/ count_kind Enter its = O)
  /\ (count_kind MoveStepRight its = O \/ count_kind MoveStepLeft its = O)
  /\ (count_kind Escape its <= 1)%nat
  /\ (count_kind Enter its <= 1)%nat
  /\ (count_kind Delete its <= 2)%nat
  /\ (count_kind Delete its = O \/ delete_mode_active g' = true)
  /\ (count_kind Enter its = O
      \/ (wasReleased s = true /\ delete_mode_active g' = false
          /\ press_start_ms g' = 0)).
Proof.
  cbv zeta.
  destruct (loop_intents s g) as [-> _]. rewrite loop_state, !count_kind_app.
  destruct (touch_part_intents s g) as [-> _].
  set (g1 := state_of (touch_part s g)).
  destruct (encoder_part_batch s g1) as (k & n & Hk & -> & _).
  set (g2 := state_of (encoder_part s g1)).
  destruct (button_part_intents s g2) as [-> _].
  rewrite button_part_run, !count_kind_app, !count_kind_step_batch.
  cbn [state_of fst snd delete_mode_active press_start_ms].
  button_tests.
  destruct (delete_mode_active g2), (wasReleased s), (pressedFor_3000 s),
    (escape_fires s);
    cbn [andb orb negb];
    repeat match goal with
           | |- context [500 <=? ?a] => destruct (500 <=? a)
           | |- context [?a <? 3000] => destruct (a <? 3000)
           end;
    destruct k; try discriminate Hk;
    cbn [count_kind filter is_kind IntentKind_eqb fst length Nat.add];
    rewrite ?Nat.add_0_r;
    repeat split;
    first [lia | left; reflexivity | right; repeat split; reflexivity].
Qed.

(** ** The pressed key shown on the screen *)

Lemma shown_zone_app (shown : Z) (a b : list action) :
  shown_zone shown (a ++ b) = shown_zone (shown_zone shown a) b.
Proof.
  revert shown. induction a as [|x a IH]; intros shown; [reflexivity|].
  destruct x; cbn [app shown_zone]; apply IH.
Qed.

Lemma shown_zone_arrows (shown : Z) (k : hid_key) (n : nat) :
  shown_zone shown (concat (repeat (arrow_tx k) n)) = shown.
Proof.
  induction n as [|n IH]; [reflexivity|].
  cbn [repeat concat arrow_tx app shown_zone]. exact IH.
Qed.

Lemma shown_zone_batch (shown : Z) (k : hid_key) (c : ascii) (lock : bool) (n : nat) :
  shown_zone shown (batch_tx k c lock n) = shown
  \/ shown_zone shown (batch_tx k c lock n) = -1.
Proof.
  destruct n as [|n]; [left; reflexivity|]. unfold batch_tx.
  rewrite shown_zone_app, shown_zone_arrows. destruct lock; [right|left]; reflexivity.
Qed.

Lemma loop_shown_zone (s : Sample) (g : Globals) (shown : Z) :
  shown = -1 \/ shown = last_touch_zone g ->
  shown_zone shown (actions_of (loop s g)) = -1
  \/ shown_zone shown (actions_of (loop s g)) = last_touch_zone (state_of (loop s g)).
Proof.
  intros H. rewrite loop_run. cbn [actions_of state_of fst snd].
  rewrite !shown_zone_app.
  set (g1 := state_of (touch_part s g)).
  set (g2 := state_of (encoder_part s g1)).
  assert (Hz2 : last_touch_zone (state_of (button_part s g2)) = last_touch_zone g1).
  { rewrite button_part_run. cbn [state_of fst snd last_touch_zone].
    unfold g2. rewrite encoder_part_run. cbv zeta.
    destruct (encoder_delta s g1 =? 0); [reflexivity|].
    destruct (0 <? encoder_delta s g1); cbn [state_of fst snd];
      destruct (Z.to_nat _); reflexivity. }
  rewrite Hz2.
  assert (Ht : shown_zone shown (snd (touch_part s g)) = -1
               \/ shown_zone shown (snd (touch_part s g)) = last_touch_zone g1).
  { unfold g1. rewrite touch_part_run.
    cbn [state_of fst snd last_touch_zone].
    destruct (Z.eqb_spec (touch_zone s) (last_touch_zone g)) as [E|E],
      (escape_fires s), (shift_toggles s), (touch_state_eqb (t_state s) touch_end);
      cbn [app shown_zone arrow_tx]; auto; rewrite E; exact H. }
  assert (He : forall z, z = -1 \/ z = last_touch_zone g1 ->
                         shown_zone z (snd (encoder_part s g1)) = -1
                         \/ shown_zone z (snd (encoder_part s g1)) = last_touch_zone g1).
  { intros z Hz. rewrite encoder_part_run. cbv zeta.
    destruct (encoder_delta s g1 =? 0); [exact Hz|].
    destruct (0 <? encoder_delta s g1); cbn [snd];
      match goal with
      | |- context [batch_tx ?k ?c ?l ?n] =>
          destruct (shown_zone_batch z k c l n) as [-> | ->]; auto
      end. }
  assert (Hb : forall z, z = -1 \/ z = last_touch_zone g1 ->
                         shown_zone z (snd (button_part s g2)) = -1
                         \/ shown_zone z (snd (button_part s g2)) = last_touch_zone g1).
  { intros z Hz. rewrite button_part_run. cbn [snd].
    destruct (long_press_starts s g2), (repeat_fires s g2), (enter_fires s g2),
      (shift_lock g2); cbn [app shown_zone arrow_tx ascii_tx]; auto. }
  apply Hb, He, Ht.
Qed.

(** X13. The highlight is never on the wrong key: after [setup] and
    after every iteration the latest [draw_keys] call drew either no key
    pressed or the zone recorded in [last_touch_zone]. *)
Theorem highlight_never_on_wrong_key (ss : list Sample) (g : Globals) (shown : Z) :
  shown = -1 \/ shown = last_touch_zone g ->
  shown_zone shown (snd (run_loop ss g)) = -1
  \/ shown_zone shown (snd (run_loop ss g)) = last_touch_zone (final_globals ss g).
Proof.
  revert g shown. induction ss as [|s ss IH]; intros g shown H; [exact H|].
  rewrite run_loop_cons, final_globals_cons. cbn [snd].
  rewrite shown_zone_app. apply IH, loop_shown_zone, H.
Qed.

Lemma highlight_never_on_wrong_key_witness :
  shown_zone (-1)
    (snd (run_loop [poll_touch touch_begin 200 0; poll_touch hold 200 4;
                    poll_touch hold 10 4]
                   (state_of (setup 0 initial_globals)))) = -1
  \/ shown_zone (-1)
       (snd (run_loop [poll_touch touch_begin 200 0; poll_touch hold 200 4;
                       poll_touch hold 10 4]
                      (state_of (setup 0 initial_globals))))
     = last_touch_zone
         (final_globals [poll_touch touch_begin 200 0; poll_touch hold 200 4;
                         poll_touch hold 10 4]
                        (state_of (setup 0 initial_globals))).
Proof.
  apply (highlight_never_on_wrong_key
           [poll_touch touch_begin 200 0; poll_touch hold 200 4; poll_touch hold 10 4]
           (state_of (setup 0 initial_globals)) (-1)).
  left. reflexivity.
Defined.

(** ** Steps and taps over many iterations *)

(** X14. The steps sent track the dial: over any run of iterations,
    four times the right steps minus the left steps never differs from
    the distance between the latest encoder reading and the starting
    [prev_pos] by a whole step, and [prev_pos] has moved by exactly four
    ticks per step sent. *)
Theorem steps_track_the_dial (ss : list Sample) (g : Globals) :
  encoder_small (prev_pos g) ->
  Forall (fun s => encoder_small (encoder s)) ss ->
  prev_pos (final_globals ss g) = prev_pos g + 4 * net_steps (trace_intents ss g)
  /\ Z.abs (4 * net_steps (trace_intents ss g)
            - (last_encoder (prev_pos g) ss - prev_pos g)) < 4.
Proof.
  intros Hp Hall.
  destruct (trace_encoder_invariant ss g Hp Hall) as (H1 & _ & H3). lia.
Qed.

Lemma steps_track_the_dial_witness :
  prev_pos (final_globals [poll_encoder 5; poll_encoder 3; poll_encoder (-6)]
                          initial_globals)
  = 0 + 4 * net_steps (trace_intents [poll_encoder 5; poll_encoder 3; poll_encoder (-6)]
                                     initial_globals).
Proof.
  apply (steps_track_the_dial [poll_encoder 5; poll_encoder 3; poll_encoder (-6)]
                              initial_globals).
  - vm_compute. split; reflexivity.
  - repeat constructor.
Defined.

Lemma loop_count_escape (s : Sample) (g : Globals) :
  count_kind Escape (intents (loop s g)) = if escape_fires s then 1%nat else O.
Proof.
  destruct (loop_intents s g) as [-> _]. rewrite !count_kind_app.
  destruct (touch_part_intents s g) as [-> _].
  destruct (encoder_part_batch s (state_of (touch_part s g))) as (k & n & Hk & -> & _).
  rewrite count_kind_step_batch.
  match goal with
  | |- context [intents (button_part s ?g2)] =>
      destruct (button_part_intents s g2) as [-> _];
      destruct (long_press_starts s g2), (repeat_fires s g2), (enter_fires s g2)
  end;
    destruct k; try discriminate Hk; destruct (escape_fires s); reflexivity.
Qed.

(** X15. One Escape per tap: over any run of iterations the number of
    Escape intents sent is exactly the number of samples in which a touch
    began in the Escape zone, whatever the dial and the button do
    meanwhile. *)
Theorem one_escape_per_tap (ss : list Sample) (g : Globals) :
  count_kind Escape (trace_intents ss g) = escape_count ss.
Proof.
  revert g. induction ss as [|s ss IH]; intros g; [reflexivity|].
  rewrite trace_intents_cons, count_kind_app, loop_count_escape, IH.
  unfold escape_count. cbn [filter].
  destruct (escape_fires s); reflexivity.
Qed.
